(** * SaaS Auto-Factory: the response clean-up helpers, the API error
      classifier and the stage machine of the front end

    The development embeds three parts of the repository:
    - the string helpers of the generative-AI service module
      ([cleanJsonString], the fence stripping of the user-flow agent) and
      its error classifier [handleApiError];
    - the data model of [types.ts] ([FactoryState], [INITIAL_STATE]);
    - the handlers of the [App] component, as updates of the factory state
      driven by user events and by the settling of the awaited agent calls.

    JavaScript strings are sequences of code units; here a code unit is an
    [ascii] (the one-byte range), which covers every literal the program
    matches against.  Numbers are integers or NaN. *)

From Equations Require Import Equations.
From Stdlib Require Import Arith Lia ZArith Ascii String Bool List.
Import ListNotations.

Set Implicit Arguments.

(* ===================================================================== *)
(** ** JavaScript string primitives used by the program *)
(* ===================================================================== *)

Module Js.

Definition jsstring := list ascii.

(** A string literal of the source. *)
Definition str (s : string) : jsstring := list_ascii_of_string s.

(** [a === b] on strings. *)
Fixpoint strict_eq (a b : jsstring) : bool :=
  match a, b with
  | [], [] => true
  | x :: a', y :: b' => Ascii.eqb x y && strict_eq a' b'
  | _, _ => false
  end.

(** Truthiness of a string: the empty string is falsy. *)
Definition truthy (s : jsstring) : bool :=
  match s with [] => false | _ :: _ => true end.

(** [a || b] where [a] may be [undefined] and [b] is a string. *)
Definition or_else (a : option jsstring) (b : jsstring) : jsstring :=
  match a with
  | Some s => if truthy s then s else b
  | None => b
  end.

(** The class [\s] of regular expressions, on one-byte code units:
    TAB, LF, VT, FF, CR, space and the no-break space. *)
Definition is_space (c : ascii) : bool :=
  let n := nat_of_ascii c in
  ((9 <=? n) && (n <=? 13)) || (n =? 32) || (n =? 160).

(** [s.startsWith(p)]. *)
Fixpoint startsWith (p s : jsstring) : bool :=
  match p, s with
  | [], _ => true
  | _ :: _, [] => false
  | a :: p', b :: s' => Ascii.eqb a b && startsWith p' s'
  end.

(** [s.includes(p)]. *)
Fixpoint includes (p s : jsstring) : bool :=
  startsWith p s ||
  match s with
  | [] => false
  | _ :: s' => includes p s'
  end.

(** [s.indexOf(c)] for a one-character needle: the first index, or -1. *)
Fixpoint indexOf_from (c : ascii) (s : jsstring) (i : Z) : Z :=
  match s with
  | [] => (-1)%Z
  | x :: s' => if Ascii.eqb x c then i else indexOf_from c s' (i + 1)%Z
  end.

Definition indexOf (c : ascii) (s : jsstring) : Z := indexOf_from c s 0%Z.

(** [s.lastIndexOf(c)]: the last index, or -1. *)
Fixpoint lastIndexOf_from (c : ascii) (s : jsstring) (i last : Z) : Z :=
  match s with
  | [] => last
  | x :: s' =>
      lastIndexOf_from c s' (i + 1)%Z (if Ascii.eqb x c then i else last)
  end.

Definition lastIndexOf (c : ascii) (s : jsstring) : Z :=
  lastIndexOf_from c s 0%Z (-1)%Z.

(** [s.substring(a, b)]: both indices are clamped to [0, length] and
    swapped when [a > b]. *)
Definition substring (s : jsstring) (a b : Z) : jsstring :=
  let len := Z.of_nat (List.length s) in
  let clamp x := Z.max 0 (Z.min x len) in
  let lo := Z.min (clamp a) (clamp b) in
  let hi := Z.max (clamp a) (clamp b) in
  firstn (Z.to_nat (hi - lo)) (skipn (Z.to_nat lo) s).

(** [s.toLowerCase()] on one-byte code units: A-Z and the Latin-1 capitals
    (U+00C0 to U+00DE, the multiplication sign U+00D7 apart) move up by 32. *)
Definition lower_char (c : ascii) : ascii :=
  let n := nat_of_ascii c in
  if ((65 <=? n) && (n <=? 90)) ||
     ((192 <=? n) && (n <=? 222) && negb (n =? 215))
  then ascii_of_nat (n + 32)
  else c.

Definition toLowerCase (s : jsstring) : jsstring := map lower_char s.

(** The greedy [\s*] at the head of [s]: what is left after it. *)
Fixpoint drop_spaces (s : jsstring) : jsstring :=
  match s with
  | c :: s' => if is_space c then drop_spaces s' else s
  | [] => []
  end.

(** Length of the match of the regular expression [m\s*] at the head of
    [s] ([m] a literal), 0 when it does not match there. *)
Definition match_fence (m s : jsstring) : nat :=
  if startsWith m s
  then List.length s - List.length (drop_spaces (skipn (List.length m) s))
  else 0.

(** [s.replace(/m\s*/g, '')]: the scan goes left to right; a match is
    dropped and the scan resumes after it, otherwise the character is kept.
    (An empty match, which only an empty [m] can give, keeps the character
    too.) *)
Equations? replace_fence (m s : jsstring) : jsstring by wf (List.length s) lt :=
  replace_fence m [] := [];
  replace_fence m (c :: s') with match_fence m (c :: s') => {
    | 0 := c :: replace_fence m s';
    | S k := replace_fence m (skipn k s') }.
Proof.
  all: simpl; try rewrite length_skipn; lia.
Qed.

(** [s.replace(/^m\s*/, '')]: only a match at the very start is dropped. *)
Definition replace_leading_fence (m s : jsstring) : jsstring :=
  if startsWith m s then drop_spaces (skipn (List.length m) s) else s.

(** The regular expression [\s*```$] at the head of [s]: the greedy [\s*]
    takes every leading space, and what is left has to be the fence. *)
Definition matches_trailing_fence (s : jsstring) : bool :=
  strict_eq (drop_spaces s) (str "```").

(** [s.replace(/\s*```$/, '')]: the leftmost position where the expression
    matches; all of the string from there on is dropped. *)
Fixpoint replace_trailing_fence (s : jsstring) : jsstring :=
  if matches_trailing_fence s then []
  else match s with
       | [] => []
       | c :: s' => c :: replace_trailing_fence s'
       end.

(** Strings made of [\s] characters only, and strings with no such
    character at either end. *)
Definition all_spaces (ws : jsstring) : Prop :=
  Forall (fun c => is_space c = true) ws.

Definition trimmed (s : jsstring) : Prop :=
  is_space (hd "x"%char s) = false /\ is_space (last s "x"%char) = false.

End Js.

Import Js.

(* ===================================================================== *)
(** ** types.ts: the data model *)
(* ===================================================================== *)

Module Types.

Inductive AgentStatus := IDLE | THINKING | COMPLETED | FAILED | SKIPPED.

(** A JavaScript number as the program meets it: an integer ([parseInt], a
    score, a stage number) or NaN ([parseInt] of an empty field). *)
Inductive number := Num (z : Z) | NaN.

Record IdeaInput := mkIdea {
  name : jsstring;
  targetUser : jsstring;
  painPoint : jsstring;
  description : jsstring }.

(** The decision is a string of the decoded model response; [rawOutput] is
    declared by the interface but no producer sets it. *)
Record RadarResult := mkRadarResult {
  score : number;
  reasoning : jsstring;
  radar_decision : jsstring;
  rawOutput : option jsstring }.

(** [prd] and [features] are [None] for the object that
    [{ ...null, optimizations: x }] builds. *)
Record ProductResult := mkProductResult {
  prd : option jsstring;
  features : option (list jsstring);
  optimizations : option jsstring;
  userFlow : option jsstring;
  techSpec : option jsstring }.

Record TechResult := mkTechResult {
  stack : jsstring;
  schema : jsstring;
  apiSpec : jsstring;
  fullOutput : jsstring }.

Record DevResult := mkDevResult {
  codeStructure : jsstring;
  instructions : jsstring }.

Record QAMetrics := mkMetrics {
  users : number;
  retention : jsstring;
  revenue : jsstring;
  feedback : jsstring }.

Record QAResult := mkQAResult {
  qa_decision : jsstring;
  analysis : jsstring }.

(** [{ status: AgentStatus; result: R | null }] *)
Record Slot (R : Type) := mkSlot {
  status : AgentStatus;
  result : option R }.

Record QASlot := mkQASlot {
  qa_status : AgentStatus;
  metrics : QAMetrics;
  qa_result : option QAResult }.

Record FactoryState := mkState {
  currentStage : Z;
  idea : IdeaInput;
  radar : Slot RadarResult;
  product : Slot ProductResult;
  tech : Slot TechResult;
  dev : Slot DevResult;
  qa : QASlot }.

Definition INITIAL_STATE : FactoryState :=
  {| currentStage := 0;
     idea := {| name := str ""; targetUser := str "";
                painPoint := str ""; description := str "" |};
     radar := {| status := IDLE; result := None |};
     product := {| status := IDLE; result := None |};
     tech := {| status := IDLE; result := None |};
     dev := {| status := IDLE; result := None |};
     qa := {| qa_status := IDLE;
              metrics := {| users := Num 0; retention := str "";
                            revenue := str ""; feedback := str "" |};
              qa_result := None |} |}.

End Types.

Import Types.

(* ===================================================================== *)
(** ** The generative-AI service module *)
(* ===================================================================== *)

Module GeminiService.

(** What a [catch] clause of the program receives: an [Error] object (of
    [new Error], of the SDK, the [SyntaxError] of [JSON.parse]) with its
    name and message, or a thrown primitive string. *)
Inductive thrown :=
| ThrownError (name message : jsstring)
| ThrownString (s : jsstring).

(** [new Error(m)] *)
Definition new_Error (m : jsstring) : thrown := ThrownError (str "Error") m.

(** [e.message]: [undefined] on a primitive string. *)
Definition message_of (e : thrown) : option jsstring :=
  match e with
  | ThrownError _ m => Some m
  | ThrownString _ => None
  end.

(** [e.toString()]: [Error.prototype.toString] joins name and message and
    leaves out an empty one; a string is its own [toString]. *)
Definition toString (e : thrown) : jsstring :=
  match e with
  | ThrownError n m =>
      if negb (truthy n) then m
      else if negb (truthy m) then n
      else n ++ str ": " ++ m
  | ThrownString s => s
  end.

(** [e.message === m] *)
Definition message_is (e : thrown) (m : jsstring) : bool :=
  match message_of e with
  | Some x => strict_eq x m
  | None => false
  end.

(** A call either returns a value or throws. *)
Inductive outcome (A : Type) :=
| Returned (a : A)
| Threw (e : thrown).
Arguments Threw {A} e.

(** [handleApiError]: its return type is [never]; the function gives the
    value that is thrown.
<<
  const msg = (error?.message || error?.toString() || '').toLowerCase();
  if (msg.includes('401') || msg.includes('403') || msg.includes('api key')
      || msg.includes('unauthenticated')) throw new Error("INVALID_API_KEY");
  if (msg.includes('429') || msg.includes('quota'))
    throw new Error("QUOTA_EXCEEDED");
  if (msg === "MISSING_API_KEY") throw new Error("MISSING_API_KEY");
  throw error;
>> *)
Definition error_text (error : thrown) : jsstring :=
  or_else (message_of error) (or_else (Some (toString error)) (str "")).

Definition handleApiError (error : thrown) : thrown :=
  let msg := toLowerCase (error_text error) in
  if includes (str "401") msg || includes (str "403") msg
     || includes (str "api key") msg || includes (str "unauthenticated") msg
  then new_Error (str "INVALID_API_KEY")
  else if includes (str "429") msg || includes (str "quota") msg
  then new_Error (str "QUOTA_EXCEEDED")
  else if strict_eq msg (str "MISSING_API_KEY")
  then new_Error (str "MISSING_API_KEY")
  else error.

(** The two passes of [cleanJsonString] that remove the code fences:
    [text.replace(/```json\s*/g, '').replace(/```\s*/g, '')]. *)
Definition strip_fences (text : jsstring) : jsstring :=
  replace_fence (str "```") (replace_fence (str "```json") text).

(** [cleanJsonString] *)
Definition cleanJsonString (text : jsstring) : jsstring :=
  if negb (truthy text) then str "{}"
  else
    let clean := strip_fences text in
    let firstOpen := indexOf "{"%char clean in
    let lastClose := lastIndexOf "}"%char clean in
    if negb (firstOpen =? -1)%Z && negb (lastClose =? -1)%Z
       && (lastClose >? firstOpen)%Z
    then substring clean firstOpen (lastClose + 1)%Z
    else clean.

(** What the [try] block of an agent meets before any post-processing:
    [getAI] finds no API key, the awaited [generateContent] rejects, or it
    resolves with a response whose [text] may be [undefined]. *)
Inductive attempt :=
| NoApiKey
| Rejected (e : thrown)
| Responded (text : option jsstring).

(** [getAI] throws [new Error("MISSING_API_KEY")] without a key. *)
Definition missing_key : thrown := new_Error (str "MISSING_API_KEY").

Section Agents.

(** [JSON.parse], a builtin of the engine, decoding into the result type
    of the agent; it throws a [SyntaxError] with an engine-made message. *)
Variable R : Type.
Variable JSON_parse : jsstring -> outcome R.

(** [JSON.parse(cleanJsonString(response.text || '{}'))] in the [try]
    block of the agents that decode JSON. *)
Definition try_json (a : attempt) : outcome R :=
  match a with
  | NoApiKey => Threw missing_key
  | Rejected e => Threw e
  | Responded text => JSON_parse (cleanJsonString (or_else text (str "{}")))
  end.

(** The [catch] clause shared by [IdeaRadarAgent] and [DecisionGateAgent]:
<<
  try { handleApiError(error); } catch (e) {
    if (e.message === "INVALID_API_KEY" || e.message === "MISSING_API_KEY"
        || e.message === "QUOTA_EXCEEDED") throw e;
    return fallback;
  }
>> *)
Definition catch_critical (fallback : R) (error : thrown) : outcome R :=
  let e := handleApiError error in
  if message_is e (str "INVALID_API_KEY")
     || message_is e (str "MISSING_API_KEY")
     || message_is e (str "QUOTA_EXCEEDED")
  then Threw e
  else Returned fallback.

Definition json_agent (fallback : R) (a : attempt) : outcome R :=
  match try_json a with
  | Returned r => Returned r
  | Threw error => catch_critical fallback error
  end.

(** [GenerateIdeaFromTrends]: the parse has a [try] of its own, whose
    [catch] returns the fallback whatever was thrown; the other failures
    go to [handleApiError]. *)
Definition trends_agent (fallback : R) (a : attempt) : outcome R :=
  match a with
  | NoApiKey => Threw (handleApiError missing_key)
  | Rejected e => Threw (handleApiError e)
  | Responded text =>
      match JSON_parse (cleanJsonString (or_else text (str "{}"))) with
      | Returned r => Returned r
      | Threw _ => Returned fallback
      end
  end.

End Agents.

Definition radar_fallback : RadarResult :=
  {| score := Num 0;
     radar_decision := str "KILL";
     reasoning :=
       str "Analysis failed due to model response error. Please try again.";
     rawOutput := None |}.

Definition gate_fallback : QAResult :=
  {| qa_decision := str "ITERATE";
     analysis :=
       str "Error analyzing metrics. Suggesting iteration by default." |}.

Definition trends_fallback : IdeaInput :=
  {| name := str "Manual Input Required";
     targetUser := str "Define your audience";
     painPoint := str "Define the problem";
     description :=
       str "The AI could not generate a valid format. Please enter your idea manually." |}.

Definition IdeaRadarAgent (JSON_parse : jsstring -> outcome RadarResult)
  : attempt -> outcome RadarResult :=
  json_agent JSON_parse radar_fallback.

Definition DecisionGateAgent (JSON_parse : jsstring -> outcome QAResult)
  : attempt -> outcome QAResult :=
  json_agent JSON_parse gate_fallback.

Definition GenerateIdeaFromTrends (JSON_parse : jsstring -> outcome IdeaInput)
  : attempt -> outcome IdeaInput :=
  trends_agent JSON_parse trends_fallback.

(** The agents that return [response.text] as it is ([ProductDesignerAgent],
    [ProductMVPReviewer], [ProductTechSpecGenerator], [TechLeadAgent],
    [DevAgent]): every failure goes through [handleApiError]. *)
Definition text_agent (a : attempt) : outcome (option jsstring) :=
  match a with
  | NoApiKey => Threw (handleApiError missing_key)
  | Rejected e => Threw (handleApiError e)
  | Responded text => Returned text
  end.

(** The fence stripping of [ProductUserFlowDesigner]:
<<
    let clean = response.text || '';
    if (clean.startsWith('```mermaid')) {
      clean = clean.replace(/^```mermaid\s*/, '').replace(/\s*```$/, '');
    } else if (clean.startsWith('```')) {
      clean = clean.replace(/^```\s*/, '').replace(/\s*```$/, '');
    }
    return clean;
>> *)
Definition strip_flow_fences (text : option jsstring) : jsstring :=
  let clean := or_else text (str "") in
  if startsWith (str "```mermaid") clean
  then replace_trailing_fence (replace_leading_fence (str "```mermaid") clean)
  else if startsWith (str "```") clean
  then replace_trailing_fence (replace_leading_fence (str "```") clean)
  else clean.

Definition ProductUserFlowDesigner (a : attempt) : outcome jsstring :=
  match a with
  | NoApiKey => Threw (handleApiError missing_key)
  | Rejected e => Threw (handleApiError e)
  | Responded text => Returned (strip_flow_fences text)
  end.

(** [getAI] and the module variable [aiInstance] it caches the client in:
<<
  if (!aiInstance) {
    const apiKey = process.env.API_KEY;
    if (!apiKey) throw new Error("MISSING_API_KEY");
    aiInstance = new GoogleGenAI({ apiKey });
  }
  return aiInstance;
>>
    The function gives what the call returns or throws, and the value of
    [aiInstance] after it. *)
Record GoogleGenAI := mkGoogleGenAI { apiKey : jsstring }.

Definition getAI (aiInstance : option GoogleGenAI) (API_KEY : option jsstring)
  : outcome GoogleGenAI * option GoogleGenAI :=
  match aiInstance with
  | Some ai => (Returned ai, aiInstance)
  | None =>
      match API_KEY with
      | Some k =>
          if negb (truthy k) then (Threw missing_key, None)
          else (Returned (mkGoogleGenAI k), Some (mkGoogleGenAI k))
      | None => (Threw missing_key, None)
      end
  end.

End GeminiService.

Import GeminiService.

(* ===================================================================== *)
(** ** The App component: state, handlers, events *)
(* ===================================================================== *)

Module App.

Inductive ApiKeyErrorType := MISSING | INVALID | QUOTA.

Record ApiKeyError := mkApiKeyError {
  type : ApiKeyErrorType;
  banner : jsstring }.

(** The awaited agent calls. *)
Inductive call :=
| CallTrends | CallRadar | CallProduct | CallReview | CallUserFlow
| CallTechSpec | CallTech | CallDev | CallGate.

Definition call_eqb (a b : call) : bool :=
  match a, b with
  | CallTrends, CallTrends | CallRadar, CallRadar | CallProduct, CallProduct
  | CallReview, CallReview | CallUserFlow, CallUserFlow
  | CallTechSpec, CallTechSpec | CallTech, CallTech | CallDev, CallDev
  | CallGate, CallGate => true
  | _, _ => false
  end.

(** The [useState] cells of [App], and the agent calls that were issued and
    have not settled yet. *)
Record AppState := mkApp {
  state : FactoryState;
  apiKeyError : option ApiKeyError;
  isResearching : bool;
  loadingOptimization : bool;
  loadingUserFlow : bool;
  loadingTechSpec : bool;
  pending : list call }.

(** *** Record updates: [{ ...prev, field: v }] *)

Definition with_currentStage (v : Z) (s : FactoryState) : FactoryState :=
  mkState v (idea s) (radar s) (product s) (tech s) (dev s) (qa s).
Definition with_idea (v : IdeaInput) (s : FactoryState) : FactoryState :=
  mkState (currentStage s) v (radar s) (product s) (tech s) (dev s) (qa s).
Definition with_radar (v : Slot RadarResult) (s : FactoryState) : FactoryState :=
  mkState (currentStage s) (idea s) v (product s) (tech s) (dev s) (qa s).
Definition with_product (v : Slot ProductResult) (s : FactoryState)
  : FactoryState :=
  mkState (currentStage s) (idea s) (radar s) v (tech s) (dev s) (qa s).
Definition with_tech (v : Slot TechResult) (s : FactoryState) : FactoryState :=
  mkState (currentStage s) (idea s) (radar s) (product s) v (dev s) (qa s).
Definition with_dev (v : Slot DevResult) (s : FactoryState) : FactoryState :=
  mkState (currentStage s) (idea s) (radar s) (product s) (tech s) v (qa s).
Definition with_qa (v : QASlot) (s : FactoryState) : FactoryState :=
  mkState (currentStage s) (idea s) (radar s) (product s) (tech s) (dev s) v.

(** [{ ...slot, status: v }] *)
Definition with_status {R} (v : AgentStatus) (sl : Slot R) : Slot R :=
  mkSlot v (result sl).
Definition with_qa_status (v : AgentStatus) (q : QASlot) : QASlot :=
  mkQASlot v (metrics q) (qa_result q).
Definition with_metrics (v : QAMetrics) (q : QASlot) : QASlot :=
  mkQASlot (qa_status q) v (qa_result q).

(** [setState(f)] and the other setters, on the cells of the component. *)
Definition setState (f : FactoryState -> FactoryState) (a : AppState)
  : AppState :=
  mkApp (f (state a)) (apiKeyError a) (isResearching a)
        (loadingOptimization a) (loadingUserFlow a) (loadingTechSpec a)
        (pending a).
Definition setApiKeyError (v : option ApiKeyError) (a : AppState) : AppState :=
  mkApp (state a) v (isResearching a)
        (loadingOptimization a) (loadingUserFlow a) (loadingTechSpec a)
        (pending a).
Definition setIsResearching (v : bool) (a : AppState) : AppState :=
  mkApp (state a) (apiKeyError a) v
        (loadingOptimization a) (loadingUserFlow a) (loadingTechSpec a)
        (pending a).
Definition setLoadingOptimization (v : bool) (a : AppState) : AppState :=
  mkApp (state a) (apiKeyError a) (isResearching a)
        v (loadingUserFlow a) (loadingTechSpec a) (pending a).
Definition setLoadingUserFlow (v : bool) (a : AppState) : AppState :=
  mkApp (state a) (apiKeyError a) (isResearching a)
        (loadingOptimization a) v (loadingTechSpec a) (pending a).
Definition setLoadingTechSpec (v : bool) (a : AppState) : AppState :=
  mkApp (state a) (apiKeyError a) (isResearching a)
        (loadingOptimization a) (loadingUserFlow a) v (pending a).

(** Issuing an awaited call, and its settling. *)
Definition issue (c : call) (a : AppState) : AppState :=
  mkApp (state a) (apiKeyError a) (isResearching a)
        (loadingOptimization a) (loadingUserFlow a) (loadingTechSpec a)
        (c :: pending a).

Fixpoint remove_call (c : call) (l : list call) : list call :=
  match l with
  | [] => []
  | x :: l' => if call_eqb c x then l' else x :: remove_call c l'
  end.

Definition settle (c : call) (a : AppState) : AppState :=
  mkApp (state a) (apiKeyError a) (isResearching a)
        (loadingOptimization a) (loadingUserFlow a) (loadingTechSpec a)
        (remove_call c (pending a)).

Definition is_pending (c : call) (a : AppState) : bool :=
  existsb (call_eqb c) (pending a).

(** The component as mounted: the effect of the first render raises the
    banner when [process.env.API_KEY] is not set. *)
Definition initial_app (has_key : bool) : AppState :=
  {| state := INITIAL_STATE;
     apiKeyError :=
       if has_key then None
       else Some (mkApiKeyError MISSING
                    (str "The API_KEY environment variable is not set."));
     isResearching := false;
     loadingOptimization := false;
     loadingUserFlow := false;
     loadingTechSpec := false;
     pending := [] |}.

(** [handleApiError] of the component: one of the three messages raises the
    banner, anything else is shown in an [alert], which leaves no state. *)
Definition handleApiError (err : thrown) (a : AppState) : AppState :=
  if message_is err (str "INVALID_API_KEY")
  then setApiKeyError
         (Some (mkApiKeyError INVALID
                  (str "The provided API Key is invalid or expired."))) a
  else if message_is err (str "QUOTA_EXCEEDED")
  then setApiKeyError
         (Some (mkApiKeyError QUOTA
                  (str "You have exceeded your API quota."))) a
  else if message_is err (str "MISSING_API_KEY")
  then setApiKeyError
         (Some (mkApiKeyError MISSING
                  (str "The API_KEY environment variable is not set."))) a
  else a.

(** *** The handlers, each split at its [await] *)

(** [handleAutoResearch] *)
Definition handleAutoResearch_start (a : AppState) : AppState :=
  issue CallTrends (setIsResearching true a).

Definition handleAutoResearch_settle (o : outcome IdeaInput) (a : AppState)
  : AppState :=
  setIsResearching false
    match o with
    | Returned trendingIdea => setState (with_idea trendingIdea) a
    | Threw err => handleApiError err a
    end.

(** [handleIdeaSubmit] *)
Definition idea_ready (s : FactoryState) : bool :=
  truthy (name (idea s)) && truthy (targetUser (idea s)).

Definition handleIdeaSubmit_start (a : AppState) : AppState :=
  if negb (idea_ready (state a)) then a
  else
    issue CallRadar
      (setState (fun prev =>
                   with_radar (with_status THINKING (radar prev))
                     (with_currentStage 1 prev)) a).

Definition handleIdeaSubmit_settle (o : outcome RadarResult) (a : AppState)
  : AppState :=
  match o with
  | Returned result =>
      setState (with_radar (mkSlot COMPLETED (Some result))) a
  | Threw err =>
      setState (fun prev => with_radar (with_status FAILED (radar prev)) prev)
        (handleApiError err a)
  end.

(** [handleProceedToProduct] *)
Definition handleProceedToProduct_start (a : AppState) : AppState :=
  issue CallProduct
    (setState (fun prev =>
                 with_product (with_status THINKING (product prev))
                   (with_currentStage 2 prev)) a).

Definition handleProceedToProduct_settle (o : outcome (option jsstring))
  (a : AppState) : AppState :=
  match o with
  | Returned prdText =>
      setState
        (with_product
           (mkSlot COMPLETED
              (Some {| prd := Some (or_else prdText (str ""));
                       features := Some [];
                       optimizations := None;
                       userFlow := None;
                       techSpec := None |}))) a
  | Threw err =>
      setState
        (fun prev => with_product (with_status FAILED (product prev)) prev)
        (handleApiError err a)
  end.

(** The guard [if (!state.product.result?.prd) return;] of the three
    product actions. *)
Definition has_prd (s : FactoryState) : bool :=
  match result (product s) with
  | Some r => match prd r with Some p => truthy p | None => false end
  | None => false
  end.

(** [{ ...prev.product.result!, field: v }]: spreading [null] gives the
    empty object. *)
Definition spread_result (r : option ProductResult) : ProductResult :=
  match r with
  | Some r => r
  | None => mkProductResult None None None None None
  end.

Definition with_optimizations (v : option jsstring) (r : ProductResult) :=
  mkProductResult (prd r) (features r) v (userFlow r) (techSpec r).
Definition with_userFlow (v : option jsstring) (r : ProductResult) :=
  mkProductResult (prd r) (features r) (optimizations r) v (techSpec r).
Definition with_techSpec (v : option jsstring) (r : ProductResult) :=
  mkProductResult (prd r) (features r) (optimizations r) (userFlow r) v.

Definition update_product_result (f : ProductResult -> ProductResult)
  (prev : FactoryState) : FactoryState :=
  with_product
    (mkSlot (status (product prev))
       (Some (f (spread_result (result (product prev)))))) prev.

(** [handleOptimizeProduct] *)
Definition handleOptimizeProduct_start (a : AppState) : AppState :=
  if negb (has_prd (state a)) then a
  else issue CallReview (setLoadingOptimization true a).

Definition handleOptimizeProduct_settle (o : outcome (option jsstring))
  (a : AppState) : AppState :=
  setLoadingOptimization false
    match o with
    | Returned optimization =>
        setState (update_product_result (with_optimizations optimization)) a
    | Threw e => handleApiError e a
    end.

(** [handleGenerateUserFlow] *)
Definition handleGenerateUserFlow_start (a : AppState) : AppState :=
  if negb (has_prd (state a)) then a
  else issue CallUserFlow (setLoadingUserFlow true a).

Definition handleGenerateUserFlow_settle (o : outcome jsstring)
  (a : AppState) : AppState :=
  setLoadingUserFlow false
    match o with
    | Returned flow =>
        setState (update_product_result (with_userFlow (Some flow))) a
    | Threw e => handleApiError e a
    end.

(** [handleGenerateTechSpec] *)
Definition handleGenerateTechSpec_start (a : AppState) : AppState :=
  if negb (has_prd (state a)) then a
  else issue CallTechSpec (setLoadingTechSpec true a).

Definition handleGenerateTechSpec_settle (o : outcome (option jsstring))
  (a : AppState) : AppState :=
  setLoadingTechSpec false
    match o with
    | Returned spec =>
        setState (update_product_result (with_techSpec spec)) a
    | Threw e => handleApiError e a
    end.

(** [handleProceedToTech] *)
Definition handleProceedToTech_start (a : AppState) : AppState :=
  issue CallTech
    (setState (fun prev =>
                 with_tech (with_status THINKING (tech prev))
                   (with_currentStage 3 prev)) a).

Definition handleProceedToTech_settle (o : outcome (option jsstring))
  (a : AppState) : AppState :=
  match o with
  | Returned techSpec =>
      setState
        (with_tech
           (mkSlot COMPLETED
              (Some {| stack := str "Toh Framework";
                       schema := str "";
                       apiSpec := str "";
                       fullOutput := or_else techSpec (str "") |}))) a
  | Threw err =>
      setState (fun prev => with_tech (with_status FAILED (tech prev)) prev)
        (handleApiError err a)
  end.

(** [handleProceedToDev] *)
Definition handleProceedToDev_start (a : AppState) : AppState :=
  issue CallDev
    (setState (fun prev =>
                 with_dev (with_status THINKING (dev prev))
                   (with_currentStage 4 prev)) a).

Definition handleProceedToDev_settle (o : outcome (option jsstring))
  (a : AppState) : AppState :=
  match o with
  | Returned devOutput =>
      setState
        (with_dev
           (mkSlot COMPLETED
              (Some {| codeStructure := or_else devOutput (str "");
                       instructions := str "" |}))) a
  | Threw err =>
      setState (fun prev => with_dev (with_status FAILED (dev prev)) prev)
        (handleApiError err a)
  end.

(** The button of stage 4: [setState(p => ({...p, currentStage: 5}))]. *)
Definition simulateLaunch (a : AppState) : AppState :=
  setState (with_currentStage 5) a.

(** [handleEvaluateMetrics] *)
Definition handleEvaluateMetrics_start (a : AppState) : AppState :=
  issue CallGate
    (setState (fun prev => with_qa (with_qa_status THINKING (qa prev)) prev) a).

Definition handleEvaluateMetrics_settle (o : outcome QAResult) (a : AppState)
  : AppState :=
  match o with
  | Returned result =>
      setState
        (fun prev =>
           with_qa (mkQASlot COMPLETED (metrics (qa prev)) (Some result)) prev)
        a
  | Threw err =>
      setState (fun prev => with_qa (with_qa_status FAILED (qa prev)) prev)
        (handleApiError err a)
  end.

(** [handleRestart]; [confirmed] is the answer of [window.confirm]. *)
Definition handleRestart (confirmed : bool) (a : AppState) : AppState :=
  if confirmed
  then setApiKeyError None (setState (fun _ => INITIAL_STATE) a)
  else a.

(** *** A handler run from its call to the settling of its [await] *)

Definition handleIdeaSubmit (o : outcome RadarResult) (a : AppState)
  : AppState :=
  if negb (idea_ready (state a)) then a
  else settle CallRadar
         (handleIdeaSubmit_settle o (handleIdeaSubmit_start a)).

Definition handleProceedToProduct (o : outcome (option jsstring))
  (a : AppState) : AppState :=
  settle CallProduct
    (handleProceedToProduct_settle o (handleProceedToProduct_start a)).

Definition handleProceedToTech (o : outcome (option jsstring))
  (a : AppState) : AppState :=
  settle CallTech (handleProceedToTech_settle o (handleProceedToTech_start a)).

Definition handleProceedToDev (o : outcome (option jsstring))
  (a : AppState) : AppState :=
  settle CallDev (handleProceedToDev_settle o (handleProceedToDev_start a)).

Definition handleEvaluateMetrics (o : outcome QAResult) (a : AppState)
  : AppState :=
  settle CallGate
    (handleEvaluateMetrics_settle o (handleEvaluateMetrics_start a)).

(** *** Events: what the user and the settling calls do to the component *)

Inductive event :=
| EditName (v : jsstring)
| EditTargetUser (v : jsstring)
| EditPainPoint (v : jsstring)
| EditDescription (v : jsstring)
| ClickAutoResearch
| ClickSubmit
| ClickProceedToProduct
| ClickOptimize
| ClickUserFlow
| ClickTechSpec
| ClickProceedToTech
| ClickProceedToDev
| ClickSimulateLaunch
| EditUsers (v : number)
| EditRevenue (v : jsstring)
| EditRetention (v : jsstring)
| EditFeedback (v : jsstring)
| ClickEvaluate
| ClickRestart (confirmed : bool)
| TrendsSettled (o : outcome IdeaInput)
| RadarSettled (o : outcome RadarResult)
| ProductSettled (o : outcome (option jsstring))
| ReviewSettled (o : outcome (option jsstring))
| UserFlowSettled (o : outcome jsstring)
| TechSpecSettled (o : outcome (option jsstring))
| TechSettled (o : outcome (option jsstring))
| DevSettled (o : outcome (option jsstring))
| GateSettled (o : outcome QAResult).

(** The [onChange] handlers of the form fields. *)
Definition edit_idea (f : IdeaInput -> IdeaInput) (a : AppState) : AppState :=
  setState (fun p => with_idea (f (idea p)) p) a.
Definition edit_metrics (f : QAMetrics -> QAMetrics) (a : AppState)
  : AppState :=
  setState (fun p => with_qa (with_metrics (f (metrics (qa p))) (qa p)) p) a.

Definition step (a : AppState) (e : event) : AppState :=
  match e with
  | EditName v =>
      edit_idea (fun i => mkIdea v (targetUser i) (painPoint i) (description i)) a
  | EditTargetUser v =>
      edit_idea (fun i => mkIdea (name i) v (painPoint i) (description i)) a
  | EditPainPoint v =>
      edit_idea (fun i => mkIdea (name i) (targetUser i) v (description i)) a
  | EditDescription v =>
      edit_idea (fun i => mkIdea (name i) (targetUser i) (painPoint i) v) a
  | ClickAutoResearch => handleAutoResearch_start a
  | ClickSubmit => handleIdeaSubmit_start a
  | ClickProceedToProduct => handleProceedToProduct_start a
  | ClickOptimize => handleOptimizeProduct_start a
  | ClickUserFlow => handleGenerateUserFlow_start a
  | ClickTechSpec => handleGenerateTechSpec_start a
  | ClickProceedToTech => handleProceedToTech_start a
  | ClickProceedToDev => handleProceedToDev_start a
  | ClickSimulateLaunch => simulateLaunch a
  | EditUsers v =>
      edit_metrics (fun m => mkMetrics v (retention m) (revenue m) (feedback m)) a
  | EditRevenue v =>
      edit_metrics (fun m => mkMetrics (users m) (retention m) v (feedback m)) a
  | EditRetention v =>
      edit_metrics (fun m => mkMetrics (users m) v (revenue m) (feedback m)) a
  | EditFeedback v =>
      edit_metrics (fun m => mkMetrics (users m) (retention m) (revenue m) v) a
  | ClickEvaluate => handleEvaluateMetrics_start a
  | ClickRestart confirmed => handleRestart confirmed a
  | TrendsSettled o => settle CallTrends (handleAutoResearch_settle o a)
  | RadarSettled o => settle CallRadar (handleIdeaSubmit_settle o a)
  | ProductSettled o => settle CallProduct (handleProceedToProduct_settle o a)
  | ReviewSettled o => settle CallReview (handleOptimizeProduct_settle o a)
  | UserFlowSettled o => settle CallUserFlow (handleGenerateUserFlow_settle o a)
  | TechSpecSettled o => settle CallTechSpec (handleGenerateTechSpec_settle o a)
  | TechSettled o => settle CallTech (handleProceedToTech_settle o a)
  | DevSettled o => settle CallDev (handleProceedToDev_settle o a)
  | GateSettled o => settle CallGate (handleEvaluateMetrics_settle o a)
  end.

(** *** When an event can happen

    The guards are those of the render function: a control exists when the
    JSX around it is rendered and its [disabled] attribute is false; with
    the banner up nothing of the pipeline is rendered.  The form of stage 0
    stays rendered at every stage (past stage 0 its container only gets the
    style classes [opacity-50 pointer-events-none], which stop the pointer
    and nothing else).  A settling needs its call to be pending. *)

Definition no_banner (a : AppState) : bool :=
  match apiKeyError a with None => true | Some _ => false end.

Definition has_result {R} (sl : Slot R) : bool :=
  match result sl with Some _ => true | None => false end.

Definition radar_says (d : jsstring) (s : FactoryState) : bool :=
  match result (radar s) with
  | Some r => strict_eq (radar_decision r) d
  | None => false
  end.

(** [!!state.product.result.field] *)
Definition product_has (f : ProductResult -> option jsstring)
  (s : FactoryState) : bool :=
  match result (product s) with
  | Some r => match f r with Some v => truthy v | None => false end
  | None => false
  end.

Definition status_eqb (a b : AgentStatus) : bool :=
  match a, b with
  | IDLE, IDLE | THINKING, THINKING | COMPLETED, COMPLETED
  | FAILED, FAILED | SKIPPED, SKIPPED => true
  | _, _ => false
  end.

Definition enabled (a : AppState) (e : event) : bool :=
  let s := state a in
  let stage := currentStage s in
  match e with
  | EditName _ | EditTargetUser _ | EditPainPoint _ | EditDescription _ =>
      no_banner a && negb (isResearching a)
  | ClickAutoResearch => no_banner a && negb (isResearching a)
  | ClickSubmit =>
      no_banner a &&
      negb (negb (truthy (name (idea s))) || negb (truthy (targetUser (idea s)))
            || isResearching a)
  | ClickProceedToProduct =>
      no_banner a && (stage >=? 1)%Z && has_result (radar s)
      && (stage =? 1)%Z && radar_says (str "PROCEED") s
  | ClickOptimize =>
      no_banner a && (stage >=? 2)%Z && has_result (product s)
      && negb (loadingOptimization a || product_has optimizations s)
  | ClickUserFlow =>
      no_banner a && (stage >=? 2)%Z && has_result (product s)
      && negb (loadingUserFlow a || product_has userFlow s)
  | ClickTechSpec =>
      no_banner a && (stage >=? 2)%Z && has_result (product s)
      && negb (loadingTechSpec a || product_has techSpec s)
  | ClickProceedToTech =>
      no_banner a && (stage >=? 2)%Z && has_result (product s)
      && (stage =? 2)%Z
  | ClickProceedToDev =>
      no_banner a && (stage >=? 3)%Z && has_result (tech s) && (stage =? 3)%Z
  | ClickSimulateLaunch =>
      no_banner a && (stage >=? 4)%Z && has_result (dev s) && (stage =? 4)%Z
  | EditUsers _ | EditRevenue _ | EditRetention _ | EditFeedback _ =>
      no_banner a && (stage >=? 5)%Z
  | ClickEvaluate =>
      no_banner a && (stage >=? 5)%Z
      && (status_eqb (qa_status (qa s)) IDLE
          || status_eqb (qa_status (qa s)) COMPLETED)
  | ClickRestart _ => no_banner a
  | TrendsSettled _ => is_pending CallTrends a
  | RadarSettled _ => is_pending CallRadar a
  | ProductSettled _ => is_pending CallProduct a
  | ReviewSettled _ => is_pending CallReview a
  | UserFlowSettled _ => is_pending CallUserFlow a
  | TechSpecSettled _ => is_pending CallTechSpec a
  | TechSettled _ => is_pending CallTech a
  | DevSettled _ => is_pending CallDev a
  | GateSettled _ => is_pending CallGate a
  end.

(** The states the component can be in. *)
Inductive reachable (has_key : bool) : AppState -> Prop :=
| reach_init : reachable has_key (initial_app has_key)
| reach_step a e :
    reachable has_key a -> enabled a e = true -> reachable has_key (step a e).

(** Running a list of events, each one enabled when it happens. *)
Fixpoint run (a : AppState) (es : list event) : option AppState :=
  match es with
  | [] => Some a
  | e :: es' => if enabled a e then run (step a e) es' else None
  end.

(** The stage counter after each event of a run. *)
Fixpoint stage_trace (a : AppState) (es : list event) : list Z :=
  currentStage (state a) ::
  match es with
  | [] => []
  | e :: es' => stage_trace (step a e) es'
  end.

(** *** The five stages and the sidebar

    [isActive] is the property each [SectionHeader] of the status rail is
    given.  *)

Inductive Stage := Radar | Product | Tech | Dev | QA.

Definition stages : list Stage := [Radar; Product; Tech; Dev; QA].

Definition isActive (st : Stage) (s : FactoryState) : bool :=
  match st with
  | Radar => (currentStage s =? 1)%Z
  | Product => (currentStage s =? 2)%Z
  | Tech => (currentStage s =? 3)%Z
  | Dev => (currentStage s =? 4)%Z
  | QA => (currentStage s >=? 5)%Z
  end.

Definition active_stages (s : FactoryState) : list Stage :=
  filter (fun st => isActive st s) stages.

Definition status_of (st : Stage) (s : FactoryState) : AgentStatus :=
  match st with
  | Radar => status (radar s)
  | Product => status (product s)
  | Tech => status (tech s)
  | Dev => status (dev s)
  | QA => qa_status (qa s)
  end.

(** The values the stage counter is given. *)
Definition stage_in_range (s : FactoryState) : Prop :=
  (0 <= currentStage s <= 5)%Z.

(** What a handler of the stage [own] has to leave alone between the
    state [s] before and the state [s'] after: the idea, the QA metrics and
    the slot (status and result) of every other stage. *)
Definition untouched (own : Stage) (s s' : FactoryState) : Prop :=
  idea s' = idea s /\
  metrics (qa s') = metrics (qa s) /\
  (own <> Radar -> radar s' = radar s) /\
  (own <> Product -> product s' = product s) /\
  (own <> Tech -> tech s' = tech s) /\
  (own <> Dev -> dev s' = dev s) /\
  (own <> QA -> qa s' = qa s).

(** *** Render helpers of the status rail and of the stage panels *)

(** The colour classes [SectionHeader] picks: [text-factory-muted],
    [text-factory-success], [text-factory-danger], [text-factory-accent].
<<
  let statusColor = 'text-factory-muted';
  if (status === AgentStatus.COMPLETED) statusColor = 'text-factory-success';
  if (status === AgentStatus.FAILED || status === AgentStatus.SKIPPED)
    statusColor = 'text-factory-danger';
  if (status === AgentStatus.THINKING) statusColor = 'text-factory-accent';
>> *)
Inductive Color := Muted | Success | Danger | Accent.

Definition statusColor (status : AgentStatus) : Color :=
  let c := Muted in
  let c := if status_eqb status COMPLETED then Success else c in
  let c :=
    if status_eqb status FAILED || status_eqb status SKIPPED then Danger
    else c in
  if status_eqb status THINKING then Accent else c.

(** The badge of the tech panel:
    [state.tech.result.fullOutput.toLowerCase().includes('stripe')]. *)
Definition stripe_detected (r : TechResult) : bool :=
  includes (str "stripe") (toLowerCase (fullOutput r)).

(** *** Bookkeeping for the properties of runs *)


(** How many calls of a kind are in flight. *)
Fixpoint in_flight (c : call) (l : list call) : nat :=
  match l with
  | [] => 0
  | x :: l' => (if call_eqb c x then 1 else 0) + in_flight c l'
  end.

(** Each loading flag says that its call is in flight, and there is at most
    one such call. *)
Definition flags_track_calls (a : AppState) : Prop :=
  in_flight CallTrends (pending a) = Nat.b2n (isResearching a) /\
  in_flight CallReview (pending a) = Nat.b2n (loadingOptimization a) /\
  in_flight CallUserFlow (pending a) = Nat.b2n (loadingUserFlow a) /\
  in_flight CallTechSpec (pending a) = Nat.b2n (loadingTechSpec a).



End App.

Import App.

(* ===================================================================== *)
(** ** Facts about the string primitives *)
(* ===================================================================== *)

Unset Implicit Arguments.

Module JsFacts.

Lemma strict_eq_iff a b : strict_eq a b = true <-> a = b.
Proof.
  revert b; induction a as [|x a IH]; intros [|y b]; simpl;
    try (split; [discriminate | discriminate || congruence]); try tauto.
  rewrite andb_true_iff, Ascii.eqb_eq, IH.
  split; [intros [-> ->]; reflexivity | intros [= -> ->]; auto].
Qed.

Lemma startsWith_iff p s :
  startsWith p s = true <-> exists t, s = p ++ t.
Proof.
  revert s; induction p as [|a p IH]; intros s; simpl.
  - split; [exists s; reflexivity | auto].
  - destruct s as [|b s].
    + split; [discriminate | intros [t Ht]; discriminate].
    + rewrite andb_true_iff, Ascii.eqb_eq, IH.
      split.
      * intros [-> [t ->]]. exists t; reflexivity.
      * intros [t [= -> ->]]. split; [reflexivity | exists t; reflexivity].
Qed.

Lemma startsWith_app p t : startsWith p (p ++ t) = true.
Proof. apply startsWith_iff; exists t; reflexivity. Qed.

Lemma drop_spaces_spaces ws r :
  all_spaces ws -> drop_spaces (ws ++ r) = drop_spaces r.
Proof.
  induction 1 as [|c ws Hc _ IH]; simpl; [reflexivity|].
  rewrite Hc; exact IH.
Qed.

Lemma drop_spaces_split s :
  exists ws, all_spaces ws /\ s = ws ++ drop_spaces s.
Proof.
  induction s as [|c s (ws & Hws & Hs)]; simpl.
  - exists []; split; [constructor | reflexivity].
  - destruct (is_space c) eqn:Hc.
    + exists (c :: ws); split; [constructor; assumption|].
      simpl; f_equal; exact Hs.
    + exists []; split; [constructor | reflexivity].
Qed.

Lemma drop_spaces_length s : List.length (drop_spaces s) <= List.length s.
Proof.
  destruct (drop_spaces_split s) as (ws & _ & Hs).
  rewrite Hs at 2. rewrite length_app. lia.
Qed.

(** The two equations of the global replacement: a character where the
    expression does not match is kept, a match is jumped over. *)
Lemma replace_fence_cons m c s :
  replace_fence m (c :: s) =
  match match_fence m (c :: s) with
  | 0 => c :: replace_fence m s
  | S k => replace_fence m (skipn k s)
  end.
Proof.
  simp replace_fence.
  destruct (match_fence m (c :: s)); reflexivity.
Qed.

Lemma replace_fence_nil m : replace_fence m [] = [].
Proof. simp replace_fence. reflexivity. Qed.

Lemma replace_fence_keep m c s :
  startsWith m (c :: s) = false ->
  replace_fence m (c :: s) = c :: replace_fence m s.
Proof.
  intros H. rewrite replace_fence_cons. unfold match_fence. rewrite H.
  reflexivity.
Qed.

Lemma replace_fence_match m s :
  m <> [] -> startsWith m s = true ->
  replace_fence m s = replace_fence m (drop_spaces (skipn (List.length m) s)).
Proof.
  intros Hm H.
  destruct (proj1 (startsWith_iff m s) H) as [t ->].
  destruct m as [|a m]; [congruence|]. clear Hm.
  change ((a :: m) ++ t) with (a :: (m ++ t)) in *.
  rewrite replace_fence_cons. unfold match_fence. rewrite H.
  change (skipn (List.length (a :: m)) (a :: m ++ t))
    with (skipn (List.length m) (m ++ t)).
  rewrite skipn_app, skipn_all, Nat.sub_diag. simpl skipn. simpl app.
  destruct (drop_spaces_split t) as (ws & Hws & Ht).
  set (d := drop_spaces t) in *. clearbody d.
  assert (Hlen : List.length (a :: m ++ t) - List.length d
                 = S (List.length (m ++ ws))).
  { rewrite Ht. cbn [List.length]. rewrite !length_app. lia. }
  rewrite Hlen. f_equal.
  rewrite Ht at 1. rewrite app_assoc.
  rewrite skipn_app, skipn_all, Nat.sub_diag. reflexivity.
Qed.


(** A character that is neither a space nor part of the literal separates
    the scan: nothing matched before it reaches over it. *)
Lemma startsWith_sep m a x b :
  ~ In x m -> startsWith m (a ++ x :: b) = startsWith m a.
Proof.
  revert a; induction m as [|y m IH]; intros a Hx; [reflexivity|].
  destruct a as [|c a]; simpl.
  - destruct (Ascii.eqb_spec y x) as [->|_]; [|reflexivity].
    exfalso; apply Hx; left; reflexivity.
  - rewrite IH; [reflexivity|]. intros H; apply Hx; right; exact H.
Qed.

Lemma drop_spaces_sep t x b :
  is_space x = false -> drop_spaces (t ++ x :: b) = drop_spaces t ++ x :: b.
Proof.
  intros Hx; induction t as [|c t IH]; simpl.
  - rewrite Hx; reflexivity.
  - destruct (is_space c); [exact IH | reflexivity].
Qed.

Lemma replace_fence_sep m x a b :
  m <> [] -> ~ In x m -> is_space x = false ->
  replace_fence m (a ++ x :: b) = replace_fence m a ++ x :: replace_fence m b.
Proof.
  intros Hm Hx Hsp.
  remember (List.length a) as n eqn:Hn.
  revert a Hn; induction n as [n IH] using lt_wf_ind; intros a Hn.
  destruct a as [|c a].
  - simpl. rewrite replace_fence_nil. apply replace_fence_keep.
    pose proof (startsWith_sep m [] x b Hx) as E. simpl in E. rewrite E.
    destruct m; [congruence | reflexivity].
  - destruct (startsWith m (c :: a)) eqn:E.
    + rewrite (replace_fence_match m (c :: a) Hm E).
      rewrite replace_fence_match
        by (try assumption; rewrite startsWith_sep; assumption).
      destruct (proj1 (startsWith_iff m (c :: a)) E) as [t Ht].
      rewrite Ht, <- app_assoc.
      rewrite !skipn_app, !skipn_all, Nat.sub_diag. simpl skipn. simpl app.
      rewrite drop_spaces_sep by assumption.
      apply (IH (List.length (drop_spaces t))); [|reflexivity].
      subst n. rewrite Ht, length_app.
      pose proof (drop_spaces_length t).
      destruct m; [congruence | simpl; lia].
    + change ((c :: a) ++ x :: b) with (c :: (a ++ x :: b)).
      rewrite !replace_fence_keep
        by (try assumption;
            change (c :: a ++ x :: b) with ((c :: a) ++ x :: b);
            rewrite startsWith_sep; assumption).
      simpl. f_equal. apply (IH (List.length a)); [subst n; simpl; lia | reflexivity].
Qed.

(** [indexOf] and [lastIndexOf] by what they find. *)
Lemma indexOf_from_spec c s i :
  (~ In c s /\ indexOf_from c s i = (-1)%Z) \/
  (exists pre rest, s = pre ++ c :: rest /\ ~ In c pre /\
     indexOf_from c s i = (i + Z.of_nat (List.length pre))%Z).
Proof.
  revert i; induction s as [|x s IH]; intros i; simpl.
  - left; split; [tauto | reflexivity].
  - destruct (Ascii.eqb_spec x c) as [->|Hne].
    + right. exists [], s. split; [reflexivity|]. split; [tauto|]. simpl; lia.
    + destruct (IH (i + 1)%Z) as [[Hn He]|(pre & rest & -> & Hn & He)].
      * left; split; [|exact He]. intros [H|H]; [congruence | tauto].
      * right. exists (x :: pre), rest. split; [reflexivity|].
        split; [intros [H|H]; [congruence | tauto]|].
        rewrite He. simpl List.length. lia.
Qed.

Lemma lastIndexOf_from_spec c s i last :
  (~ In c s /\ lastIndexOf_from c s i last = last) \/
  (exists front post, s = front ++ c :: post /\ ~ In c post /\
     lastIndexOf_from c s i last = (i + Z.of_nat (List.length front))%Z).
Proof.
  revert i last; induction s as [|x s IH]; intros i last; simpl.
  - left; split; [tauto | reflexivity].
  - destruct (IH (i + 1)%Z (if Ascii.eqb x c then i else last))
      as [[Hn He]|(front & post & -> & Hn & He)].
    + destruct (Ascii.eqb_spec x c) as [->|Hne].
      * right. exists [], s. split; [reflexivity|]. split; [exact Hn|].
        rewrite He. simpl; lia.
      * left. split; [|exact He]. intros [H|H]; [congruence | tauto].
    + right. exists (x :: front), post. split; [reflexivity|].
      split; [exact Hn|]. rewrite He. simpl List.length. lia.
Qed.

Lemma substring_middle (pre mid post : jsstring) :
  substring (pre ++ mid ++ post)
            (Z.of_nat (List.length pre))
            (Z.of_nat (List.length pre) + Z.of_nat (List.length mid)) = mid.
Proof.
  unfold substring. rewrite !length_app.
  set (p := List.length pre). set (k := List.length mid).
  set (q := List.length post).
  replace (Z.max 0 (Z.min (Z.of_nat p) (Z.of_nat (p + (k + q)))))
    with (Z.of_nat p) by lia.
  replace (Z.max 0 (Z.min (Z.of_nat p + Z.of_nat k) (Z.of_nat (p + (k + q)))))
    with (Z.of_nat (p + k)) by lia.
  replace (Z.min (Z.of_nat p) (Z.of_nat (p + k))) with (Z.of_nat p) by lia.
  replace (Z.max (Z.of_nat p) (Z.of_nat (p + k))) with (Z.of_nat (p + k)) by lia.
  replace (Z.to_nat (Z.of_nat (p + k) - Z.of_nat p)) with k by lia.
  rewrite Nat2Z.id. subst p k q.
  rewrite skipn_app, skipn_all, Nat.sub_diag. simpl.
  rewrite firstn_app, firstn_all, Nat.sub_diag. simpl. apply app_nil_r.
Qed.


(** *** Occurrences *)

Lemma includes_iff p s :
  includes p s = true <-> exists u v, s = u ++ p ++ v.
Proof.
  induction s as [|c s IH].
  - simpl. rewrite orb_false_r, startsWith_iff. split.
    + intros [t Ht]. exists [], t. exact Ht.
    + intros (u & v & H). destruct u; [exists v; exact H|discriminate].
  - cbn [includes]. rewrite orb_true_iff, startsWith_iff, IH. split.
    + intros [[t Ht]|(u & v & ->)].
      * exists [], t. exact Ht.
      * exists (c :: u), v. reflexivity.
    + intros (u & v & H). destruct u as [|x u].
      * left. exists v. exact H.
      * right. injection H as -> ->. exists u, v. reflexivity.
Qed.

Lemma includes_false_part p u s v :
  includes p (u ++ s ++ v) = false -> includes p s = false.
Proof.
  intros H. destruct (includes p s) eqn:E; [|reflexivity].
  apply includes_iff in E. destruct E as (u' & v' & ->).
  rewrite <- H. symmetry. apply includes_iff.
  exists (u ++ u'), (v' ++ v). rewrite <- !app_assoc. reflexivity.
Qed.

Lemma includes_longer p q s :
  includes p s = false -> includes (p ++ q) s = false.
Proof.
  intros H. destruct (includes (p ++ q) s) eqn:E; [|reflexivity].
  apply includes_iff in E. destruct E as (u & v & ->).
  rewrite <- H. symmetry. apply includes_iff.
  exists u, (q ++ v). rewrite <- app_assoc. reflexivity.
Qed.

(** The result of [substring] is a contiguous part of the string. *)
Lemma substring_part s a b :
  exists u v, s = u ++ substring s a b ++ v.
Proof.
  unfold substring.
  set (n := Z.to_nat _). set (k := Z.to_nat _).
  exists (firstn k s), (skipn n (skipn k s)).
  rewrite firstn_skipn, firstn_skipn. reflexivity.
Qed.

(** *** The global replacement of the plain fence leaves no fence *)

Lemma startsWith_cons (a : ascii) p b s :
  startsWith (a :: p) (b :: s) = (Ascii.eqb a b && startsWith p s)%bool.
Proof. reflexivity. Qed.

Lemma startsWith_cons_ne (h : ascii) m c s :
  h <> c -> startsWith (h :: m) (c :: s) = false.
Proof.
  intros H. cbn [startsWith]. apply Ascii.eqb_neq in H. rewrite H. reflexivity.
Qed.

Lemma fence_second_ne d s :
  "`"%char <> d -> startsWith (str "```") ("`"%char :: d :: s) = false.
Proof.
  intros H. change (str "```") with ("`"%char :: "`"%char :: str "`").
  cbn [startsWith]. apply Ascii.eqb_neq in H. rewrite H.
  apply andb_false_r.
Qed.

Lemma fence_third_ne e s :
  "`"%char <> e ->
  startsWith (str "```") ("`"%char :: "`"%char :: e :: s) = false.
Proof.
  intros H. change (str "```") with ("`"%char :: "`"%char :: str "`").
  change (str "`") with ["`"%char].
  cbn [startsWith]. apply Ascii.eqb_neq in H. rewrite H.
  rewrite !andb_false_r. reflexivity.
Qed.

Lemma replace_fence_plain_head s :
  startsWith (str "```") s = false ->
  startsWith (str "```") (replace_fence (str "```") s) = false.
Proof.
  intros H.
  destruct s as [|c s]; [rewrite replace_fence_nil; reflexivity|].
  rewrite (replace_fence_keep _ c s H).
  destruct (Ascii.eqb_spec "`"%char c) as [<-|Hc];
    [|apply startsWith_cons_ne; exact Hc].
  destruct s as [|d s]; [rewrite replace_fence_nil; reflexivity|].
  destruct (Ascii.eqb_spec "`"%char d) as [<-|Hd].
  - destruct s as [|e s]; [rewrite replace_fence_keep, replace_fence_nil; reflexivity|].
    destruct (Ascii.eqb_spec "`"%char e) as [<-|He];
      [simpl in H; discriminate|].
    rewrite replace_fence_keep by (apply fence_second_ne; exact He).
    rewrite replace_fence_keep by (apply startsWith_cons_ne; exact He).
    apply fence_third_ne; exact He.
  - rewrite replace_fence_keep by (apply startsWith_cons_ne; exact Hd).
    apply fence_second_ne; exact Hd.
Qed.

Lemma replace_fence_plain_clean s :
  includes (str "```") (replace_fence (str "```") s) = false.
Proof.
  remember (List.length s) as n eqn:Hn.
  revert s Hn; induction n as [n IH] using lt_wf_ind; intros s Hn.
  destruct s as [|c s]; [rewrite replace_fence_nil; reflexivity|].
  destruct (startsWith (str "```") (c :: s)) eqn:E.
  - rewrite replace_fence_match by (assumption || discriminate).
    apply (IH (List.length (drop_spaces (skipn 3 (c :: s))))); [|reflexivity].
    subst n. pose proof (drop_spaces_length (skipn 3 (c :: s))).
    pose proof (length_skipn 3 (c :: s)). simpl in *. lia.
  - pose proof (replace_fence_plain_head (c :: s) E) as Hhead.
    rewrite (replace_fence_keep _ c s E) in *.
    cbn [includes]. rewrite Hhead. simpl.
    apply (IH (List.length s)); [subst n; simpl; lia | reflexivity].
Qed.

(** *** A prefix free of the first character of the literal is kept *)

Lemma replace_fence_prefix h m pre s :
  ~ In h pre ->
  replace_fence (h :: m) (pre ++ s) = pre ++ replace_fence (h :: m) s.
Proof.
  intros Hpre; induction pre as [|c pre IH]; [reflexivity|].
  simpl. rewrite replace_fence_keep.
  - f_equal. apply IH. intros H; apply Hpre; right; exact H.
  - apply startsWith_cons_ne. intros ->. apply Hpre; left; reflexivity.
Qed.

Lemma replace_fence_free h m s :
  ~ In h s -> replace_fence (h :: m) s = s.
Proof.
  intros H. rewrite <- (app_nil_r s) at 1.
  rewrite replace_fence_prefix by assumption.
  rewrite replace_fence_nil. apply app_nil_r.
Qed.

Lemma all_spaces_no_backquote ws : all_spaces ws -> ~ In "`"%char ws.
Proof.
  induction 1 as [|c ws Hc _ IH]; [simpl; tauto|].
  intros [E|H]; [subst c; discriminate | tauto].
Qed.

Lemma drop_spaces_incl (x : ascii) s : In x (drop_spaces s) -> In x s.
Proof.
  destruct (drop_spaces_split s) as (ws & _ & Hs).
  intros H. rewrite Hs. apply in_or_app; right; exact H.
Qed.

(** *** The trailing fence *)

Lemma strict_eq_length a b : strict_eq a b = true -> List.length a = List.length b.
Proof. intros H; apply strict_eq_iff in H; subst; reflexivity. Qed.

Lemma last_cons_cons (c d : ascii) s x : last (c :: d :: s) x = last (d :: s) x.
Proof. reflexivity. Qed.

Lemma replace_trailing_fence_eq s :
  replace_trailing_fence s =
  if matches_trailing_fence s then []
  else match s with
       | [] => []
       | c :: s' => c :: replace_trailing_fence s'
       end.
Proof. destruct s; reflexivity. Qed.

Lemma replace_trailing_fence_body body ws :
  all_spaces ws -> is_space (last body "x"%char) = false ->
  replace_trailing_fence (body ++ ws ++ str "```") = body.
Proof.
  intros Hws. induction body as [|c body IH]; intros Hlast.
  - simpl app. rewrite replace_trailing_fence_eq.
    unfold matches_trailing_fence.
    rewrite drop_spaces_spaces by assumption. reflexivity.
  - change ((c :: body) ++ ws ++ str "```")
      with (c :: (body ++ ws ++ str "```")).
    cbn [replace_trailing_fence].
    assert (Hm : matches_trailing_fence (c :: body ++ ws ++ str "```") = false).
    { unfold matches_trailing_fence.
      destruct (strict_eq _ _) eqn:E; [|reflexivity].
      apply strict_eq_length in E. exfalso.
      destruct (exists_last (l := c :: body)) as (b' & z & Hb); [discriminate|].
      rewrite Hb, last_last in Hlast.
      change (c :: body ++ ws ++ str "```")
        with ((c :: body) ++ ws ++ str "```") in E.
      rewrite Hb, <- app_assoc in E. simpl app in E.
      rewrite drop_spaces_sep in E by assumption.
      rewrite !length_app in E. simpl in E. rewrite length_app in E.
      simpl in E. lia. }
    rewrite Hm. f_equal. apply IH.
    destruct body as [|d body]; [reflexivity|].
    rewrite last_cons_cons in Hlast. exact Hlast.
Qed.

End JsFacts.

(* ===================================================================== *)
(** ** The service module: clean-up helpers and error classifier *)
(* ===================================================================== *)

Module ServiceFacts.

Import JsFacts.

(** *** The helpers on sample responses *)

Example cleanJsonString_fenced :
  cleanJsonString (str "Here you go: ```json { a: {1} } ``` bye")
  = str "{ a: {1} }".
Proof. reflexivity. Qed.

Example cleanJsonString_empty : cleanJsonString (str "") = str "{}".
Proof. reflexivity. Qed.

Example cleanJsonString_no_object :
  cleanJsonString (str "``` } then { ```") = str "} then { ".
Proof. reflexivity. Qed.

Example handleApiError_missing_key :
  GeminiService.handleApiError missing_key = missing_key.
Proof. reflexivity. Qed.

Example handleApiError_forbidden :
  GeminiService.handleApiError
    (new_Error (str "Request failed with status 403 Forbidden"))
  = new_Error (str "INVALID_API_KEY").
Proof. reflexivity. Qed.

Example handleApiError_network :
  GeminiService.handleApiError (ThrownError (str "TypeError") (str "Failed to fetch"))
  = ThrownError (str "TypeError") (str "Failed to fetch").
Proof. reflexivity. Qed.

Example radar_fallback_on_truncated_response :
  IdeaRadarAgent
    (fun _ => Threw (ThrownError (str "SyntaxError")
                                 (str "Unexpected end of JSON input")))
    (Responded (Some (str "{ score: ")))
  = Returned radar_fallback.
Proof. reflexivity. Qed.

Example strip_flow_fences_fenced :
  strip_flow_fences
    (Some (str "```mermaid" ++ ["010"%char] ++ str "graph TD; A-->B"
             ++ ["010"%char] ++ str "```"))
  = str "graph TD; A-->B".
Proof. reflexivity. Qed.

Example strip_flow_fences_unfenced :
  strip_flow_fences (Some (str "graph TD; A-->B")) = str "graph TD; A-->B".
Proof. reflexivity. Qed.

Lemma fence_nonempty : str "```" <> [].
Proof. discriminate. Qed.

Lemma json_fence_nonempty : str "```json" <> [].
Proof. discriminate. Qed.

(** The fence markers hold back-quotes and the letters of [json] only. *)
Lemma not_fence_char_fence x : ~ In x (str "```json") -> ~ In x (str "```").
Proof. simpl; tauto. Qed.

Lemma strip_fences_sep x a b :
  ~ In x (str "```json") -> is_space x = false ->
  strip_fences (a ++ x :: b) = strip_fences a ++ x :: strip_fences b.
Proof.
  intros Hx Hsp. unfold strip_fences.
  rewrite (replace_fence_sep _ x a b json_fence_nonempty Hx Hsp).
  apply replace_fence_sep;
    [exact fence_nonempty | apply not_fence_char_fence; exact Hx | exact Hsp].
Qed.

Lemma first_occurrence_le (c : ascii) pre rest front post :
  pre ++ c :: rest = front ++ c :: post -> ~ In c pre ->
  List.length pre <= List.length front.
Proof.
  intros E Hn.
  destruct (le_lt_dec (List.length pre) (List.length front)) as [|Hlt];
    [assumption|].
  exfalso; apply Hn.
  apply (nth_error_In pre (List.length front)).
  rewrite <- (nth_error_app1 pre (c :: rest)) by assumption.
  rewrite E, nth_error_app2, Nat.sub_diag by lia. reflexivity.
Qed.

Lemma last_occurrence_ge (c : ascii) pre rest front post :
  pre ++ c :: rest = front ++ c :: post -> ~ In c post ->
  List.length pre <= List.length front.
Proof.
  intros E Hn.
  destruct (le_lt_dec (List.length pre) (List.length front)) as [|Hlt];
    [assumption|].
  exfalso; apply Hn.
  apply (nth_error_In post (List.length pre - List.length front - 1)).
  assert (H : nth_error (front ++ c :: post) (List.length pre) = Some c).
  { rewrite <- E, nth_error_app2, Nat.sub_diag by lia. reflexivity. }
  rewrite nth_error_app2 in H by lia.
  destruct (List.length pre - List.length front) as [|k] eqn:Ek; [lia|].
  simpl in H. replace (S k - 1) with k by lia. exact H.
Qed.

Lemma split_between (x y : ascii) pre rest front post :
  pre ++ x :: rest = front ++ y :: post ->
  List.length pre < List.length front ->
  exists body, front = pre ++ x :: body /\ rest = body ++ y :: post.
Proof.
  intros E Hlt.
  destruct (app_eq_app _ _ _ _ E) as [l [[H1 H2]|[H1 H2]]].
  - rewrite H1, length_app in Hlt; lia.
  - destruct l as [|z body].
    + rewrite H1, app_nil_r in Hlt; lia.
    + injection H2 as -> ->. exists body; split; [exact H1 | reflexivity].
Qed.


(** C1.  A response text with a ['{'] and a ['}'] somewhere after it: the
    text without its fences splits as [pre ++ '{' body '}' ++ post] where
    [pre] has no ['{'] (the brace is the first one) and [post] no ['}'] (the
    closing brace is the last one), and [cleanJsonString] returns exactly
    the part from the first ['{'] through the last ['}']. *)
Theorem cleanJsonString_extracts_object (text a b c : jsstring) :
  text = a ++ "{"%char :: b ++ "}"%char :: c ->
  exists pre body post,
    strip_fences text = pre ++ ("{"%char :: body ++ ["}"%char]) ++ post /\
    ~ In "{"%char pre /\ ~ In "}"%char post /\
    cleanJsonString text = "{"%char :: body ++ ["}"%char].
Proof.
  intros ->.
  assert (Hopen : ~ In "{"%char (str "```json"))
    by (simpl; intuition discriminate).
  assert (Hclose : ~ In "}"%char (str "```json"))
    by (simpl; intuition discriminate).
  pose proof (strip_fences_sep "{"%char a (b ++ "}"%char :: c) Hopen eq_refl)
    as E.
  rewrite (strip_fences_sep "}"%char b c Hclose eq_refl) in E.
  set (A := strip_fences a) in *. set (B := strip_fences b) in *.
  set (C := strip_fences c) in *.
  set (l := strip_fences (a ++ "{"%char :: b ++ "}"%char :: c)) in *.
  destruct (indexOf_from_spec "{"%char l 0)
    as [[Hn _]|(pre & rest & El & Hpre & Hi)].
  { exfalso; apply Hn; rewrite E; apply in_or_app; right; left; reflexivity. }
  destruct (lastIndexOf_from_spec "}"%char l 0 (-1))
    as [[Hn _]|(front & post & El' & Hpost & Hl)].
  { exfalso; apply Hn; rewrite E; apply in_or_app; right; right;
      apply in_or_app; right; left; reflexivity. }
  assert (H1 : List.length pre <= List.length A).
  { apply (first_occurrence_le "{"%char pre rest A (B ++ "}"%char :: C));
      [rewrite <- El, <- E; reflexivity | exact Hpre]. }
  assert (H2 : List.length (A ++ "{"%char :: B) <= List.length front).
  { apply (last_occurrence_ge "}"%char (A ++ "{"%char :: B) C front post);
      [|exact Hpost].
    rewrite <- El', E, <- app_assoc. reflexivity. }
  rewrite length_app in H2; simpl in H2.
  destruct (split_between "{"%char "}"%char pre rest front post)
    as (body & Hfront & Hrest); [rewrite <- El, <- El'; reflexivity | lia |].
  exists pre, body, post.
  assert (Hsplit : l = pre ++ ("{"%char :: body ++ ["}"%char]) ++ post).
  { rewrite El, Hrest. simpl. rewrite <- app_assoc. reflexivity. }
  split; [exact Hsplit|]. split; [exact Hpre|]. split; [exact Hpost|].
  unfold cleanJsonString.
  replace (truthy (a ++ "{"%char :: b ++ "}"%char :: c)) with true
    by (destruct a; reflexivity).
  simpl negb. cbv iota. fold l. unfold indexOf, lastIndexOf. rewrite Hi, Hl.
  assert (Hlen : List.length front = List.length pre + 1 + List.length body).
  { rewrite Hfront, length_app; simpl; lia. }
  replace (0 + Z.of_nat (List.length pre) =? -1)%Z with false by lia.
  replace (0 + Z.of_nat (List.length front) =? -1)%Z with false by lia.
  replace (0 + Z.of_nat (List.length front) >? 0 + Z.of_nat (List.length pre))%Z
    with true by lia.
  simpl andb. cbv iota.
  rewrite Hsplit.
  replace (0 + Z.of_nat (List.length pre))%Z
    with (Z.of_nat (List.length pre)) by lia.
  replace (0 + Z.of_nat (List.length front) + 1)%Z
    with (Z.of_nat (List.length pre)
          + Z.of_nat (List.length ("{"%char :: body ++ ["}"%char])))%Z.
  - apply substring_middle.
  - simpl List.length. rewrite length_app. simpl. lia.
Qed.

Lemma cleanJsonString_extracts_object_witness :
  let text := str "```json {x} ```" in
  text = str "```json " ++ "{"%char :: str "x" ++ "}"%char :: str " ```" /\
  exists pre body post,
    strip_fences text = pre ++ ("{"%char :: body ++ ["}"%char]) ++ post /\
    ~ In "{"%char pre /\ ~ In "}"%char post /\
    cleanJsonString text = "{"%char :: body ++ ["}"%char].
Proof.
  split; [reflexivity|].
  apply (cleanJsonString_extracts_object
           (str "```json {x} ```") (str "```json ") (str "x") (str " ```")).
  reflexivity.
Defined.

(** *** The error classifier *)

Lemma lower_char_not_capital_M c : Ascii.eqb (lower_char c) "M"%char = false.
Proof. destruct c as [[] [] [] [] [] [] [] []]; reflexivity. Qed.

(** A lower-cased message never equals the upper-case literal
    [MISSING_API_KEY]: the third test of [handleApiError] cannot succeed. *)
Lemma toLowerCase_not_missing_key s :
  strict_eq (toLowerCase s) (str "MISSING_API_KEY") = false.
Proof.
  destruct s as [|c s]; [reflexivity|].
  change (toLowerCase (c :: s)) with (lower_char c :: toLowerCase s).
  change (str "MISSING_API_KEY") with ("M"%char :: str "ISSING_API_KEY").
  cbn [strict_eq]. rewrite lower_char_not_capital_M. reflexivity.
Qed.

(** C4.  [handleApiError] looks once at the lower-cased text of the error
    (its message, else its [toString()], else the empty string): with
    [401], [403], [api key] or [unauthenticated] in it the function throws
    [INVALID_API_KEY]; otherwise with [429] or [quota] in it it throws
    [QUOTA_EXCEEDED]; otherwise it throws the error it was given. *)
Theorem handleApiError_classifies (error : thrown) :
  let msg := toLowerCase (error_text error) in
  GeminiService.handleApiError error =
  if includes (str "401") msg || includes (str "403") msg
     || includes (str "api key") msg || includes (str "unauthenticated") msg
  then new_Error (str "INVALID_API_KEY")
  else if includes (str "429") msg || includes (str "quota") msg
  then new_Error (str "QUOTA_EXCEEDED")
  else error.
Proof.
  intros msg. unfold GeminiService.handleApiError. fold msg.
  unfold msg at 7. rewrite toLowerCase_not_missing_key. reflexivity.
Qed.

(** *** The fences *)

Lemma strip_fences_clean text :
  includes (str "```") (strip_fences text) = false.
Proof. apply replace_fence_plain_clean. Qed.

Lemma strip_fences_json_fence pre ws rest :
  ~ In "`"%char pre -> all_spaces ws ->
  strip_fences (pre ++ str "```json" ++ ws ++ rest)
  = pre ++ strip_fences (drop_spaces rest).
Proof.
  intros Hpre Hws. unfold strip_fences.
  change (str "```json") with ("`"%char :: str "``json") at 1 3.
  rewrite replace_fence_prefix by assumption.
  change ("`"%char :: str "``json") with (str "```json").
  rewrite (replace_fence_match (str "```json")) 
    by (discriminate || apply startsWith_app).
  rewrite skipn_app, skipn_all, Nat.sub_diag. simpl skipn. simpl app.
  rewrite drop_spaces_spaces by assumption.
  change (str "```") with ("`"%char :: str "``").
  apply replace_fence_prefix. assumption.
Qed.

Lemma strip_fences_plain_fence pre ws rest :
  ~ In "`"%char pre -> all_spaces ws -> ~ In "`"%char rest ->
  startsWith (str "json") (ws ++ rest) = false ->
  strip_fences (pre ++ str "```" ++ ws ++ rest) = pre ++ drop_spaces rest.
Proof.
  intros Hpre Hws Hrest Hjson.
  assert (Hy : ~ In "`"%char (ws ++ rest)).
  { intros H; apply in_app_or in H; destruct H as [H|H];
      [exact (all_spaces_no_backquote ws Hws H) | exact (Hrest H)]. }
  assert (Hd : ~ In "`"%char (drop_spaces rest))
    by (intros H; apply Hrest; apply drop_spaces_incl; exact H).
  unfold strip_fences.
  assert (E1 : replace_fence (str "```json") (pre ++ str "```" ++ ws ++ rest)
               = pre ++ str "```" ++ ws ++ rest).
  { change (str "```json") with ("`"%char :: str "``json").
    rewrite replace_fence_prefix by assumption. f_equal.
    set (y := ws ++ rest) in *. clearbody y.
    change (str "```" ++ y) with ("`"%char :: "`"%char :: "`"%char :: y).
    assert (Hhead : forall p, startsWith ("`"%char :: p) y = false).
    { intros p. destruct y as [|c y]; [reflexivity|].
      apply startsWith_cons_ne. intros E. apply Hy; left; symmetry; exact E. }
    cbv [str list_ascii_of_string] in Hjson.
    rewrite !replace_fence_keep;
      try (cbv [str list_ascii_of_string]; rewrite ?startsWith_cons;
           rewrite ?Ascii.eqb_refl, ?Hhead, ?Hjson, ?andb_false_r;
           reflexivity).
    rewrite replace_fence_free by assumption. reflexivity. }
  rewrite E1.
  change (str "```") with ("`"%char :: str "``") at 1.
  rewrite replace_fence_prefix by assumption. f_equal.
  change ("`"%char :: str "``") with (str "```").
  rewrite (replace_fence_match (str "```"))
    by (discriminate || apply startsWith_app).
  rewrite skipn_app, skipn_all, Nat.sub_diag. simpl skipn. simpl app.
  rewrite drop_spaces_spaces by assumption.
  change (str "```") with ("`"%char :: str "``").
  apply replace_fence_free. assumption.
Qed.

(** [cleanJsonString] searches the text that [strip_fences] gives: what it
    returns is a contiguous part of that text. *)
Lemma cleanJsonString_part text :
  truthy text = true ->
  exists u v, strip_fences text = u ++ cleanJsonString text ++ v.
Proof.
  intros H. unfold cleanJsonString. rewrite H. simpl negb. cbv iota.
  destruct (_ && _ && _).
  - apply substring_part.
  - exists [], []. rewrite app_nil_r. reflexivity.
Qed.

Lemma cleanJsonString_clean text :
  includes (str "```") (cleanJsonString text) = false.
Proof.
  destruct (truthy text) eqn:H.
  - destruct (cleanJsonString_part text H) as (u & v & E).
    apply (includes_false_part _ u _ v). rewrite <- E.
    apply strip_fences_clean.
  - unfold cleanJsonString. rewrite H. reflexivity.
Qed.

Lemma strip_flow_fences_mermaid ws body ws' :
  all_spaces ws -> all_spaces ws' -> trimmed body ->
  strip_flow_fences
    (Some (str "```mermaid" ++ ws ++ body ++ ws' ++ str "```")) = body.
Proof.
  intros Hws Hws' [Hhd Hlast]. unfold strip_flow_fences.
  cbn [or_else]. change (truthy (str "```mermaid" ++ _)) with true. cbv iota.
  rewrite startsWith_app. unfold replace_leading_fence.
  rewrite startsWith_app.
  rewrite skipn_app, skipn_all, Nat.sub_diag. simpl skipn. simpl app.
  rewrite drop_spaces_spaces by assumption.
  destruct body as [|c body].
  - simpl app. rewrite drop_spaces_spaces by assumption. reflexivity.
  - simpl in Hhd. simpl app. cbn [drop_spaces]. rewrite Hhd.
    apply (replace_trailing_fence_body (c :: body) ws' Hws' Hlast).
Qed.

Lemma strip_flow_fences_plain ws body ws' :
  all_spaces ws -> all_spaces ws' -> trimmed body ->
  startsWith (str "```mermaid")
    (str "```" ++ ws ++ body ++ ws' ++ str "```") = false ->
  strip_flow_fences
    (Some (str "```" ++ ws ++ body ++ ws' ++ str "```")) = body.
Proof.
  intros Hws Hws' [Hhd Hlast] Hm. unfold strip_flow_fences.
  cbn [or_else]. change (truthy (str "```" ++ _)) with true. cbv iota.
  rewrite Hm, startsWith_app. unfold replace_leading_fence.
  rewrite startsWith_app.
  rewrite skipn_app, skipn_all, Nat.sub_diag. simpl skipn. simpl app.
  rewrite drop_spaces_spaces by assumption.
  destruct body as [|c body].
  - simpl app. rewrite drop_spaces_spaces by assumption. reflexivity.
  - simpl in Hhd. simpl app. cbn [drop_spaces]. rewrite Hhd.
    apply (replace_trailing_fence_body (c :: body) ws' Hws' Hlast).
Qed.

(** The clean-up of fences where it works.  For [cleanJsonString]: the
    text it searches, [strip_fences text], holds no fence marker any more,
    neither [```] nor [```json], and nor does the result, which is a part of
    that text; a [```json] or a [```] marker goes together with the white
    space that follows it.  For the user-flow agent: a response that opens
    with [```mermaid] or [```] and ends exactly at its closing [```] comes
    back as the text between the fences, without the white space next to
    them. *)
Theorem fences_are_stripped :
  (forall text,
      includes (str "```") (strip_fences text) = false /\
      includes (str "```json") (strip_fences text) = false /\
      includes (str "```") (cleanJsonString text) = false /\
      (truthy text = true ->
       exists u v, strip_fences text = u ++ cleanJsonString text ++ v)) /\
  (forall pre ws rest,
      ~ In "`"%char pre -> all_spaces ws ->
      strip_fences (pre ++ str "```json" ++ ws ++ rest)
      = pre ++ strip_fences (drop_spaces rest)) /\
  (forall pre ws rest,
      ~ In "`"%char pre -> all_spaces ws -> ~ In "`"%char rest ->
      startsWith (str "json") (ws ++ rest) = false ->
      strip_fences (pre ++ str "```" ++ ws ++ rest) = pre ++ drop_spaces rest) /\
  (forall ws body ws',
      all_spaces ws -> all_spaces ws' -> trimmed body ->
      strip_flow_fences
        (Some (str "```mermaid" ++ ws ++ body ++ ws' ++ str "```")) = body) /\
  (forall ws body ws',
      all_spaces ws -> all_spaces ws' -> trimmed body ->
      startsWith (str "```mermaid")
        (str "```" ++ ws ++ body ++ ws' ++ str "```") = false ->
      strip_flow_fences
        (Some (str "```" ++ ws ++ body ++ ws' ++ str "```")) = body).
Proof.
  split; [|split; [|split; [|split]]].
  - intros text. split; [apply strip_fences_clean|].
    split; [apply (includes_longer (str "```") (str "json"));
            apply strip_fences_clean|].
    split; [apply cleanJsonString_clean | apply cleanJsonString_part].
  - exact strip_fences_json_fence.
  - exact strip_fences_plain_fence.
  - exact strip_flow_fences_mermaid.
  - exact strip_flow_fences_plain.
Qed.

Lemma fences_are_stripped_witness :
  includes (str "```") (cleanJsonString (str "```json {x} ``` done")) = false /\
  strip_fences (str "Sure: " ++ str "```json" ++ str "  " ++ str " {x}")
  = str "Sure: " ++ strip_fences (drop_spaces (str " {x}")) /\
  strip_fences (str "Sure: " ++ str "```" ++ str " " ++ str "{x} bye")
  = str "Sure: " ++ drop_spaces (str "{x} bye") /\
  strip_flow_fences
    (Some (str "```mermaid" ++ ["010"%char] ++ str "graph TD"
             ++ ["010"%char] ++ str "```")) = str "graph TD" /\
  strip_flow_fences
    (Some (str "```" ++ ["010"%char] ++ str "graph TD"
             ++ ["010"%char] ++ str "```")) = str "graph TD".
Proof.
  destruct fences_are_stripped as (H1 & H2 & H3 & H4 & H5).
  split; [apply (H1 (str "```json {x} ``` done"))|].
  split; [apply H2; [simpl; intuition discriminate | repeat constructor]|].
  split; [apply H3; [simpl; intuition discriminate | repeat constructor
                    | simpl; intuition discriminate | reflexivity]|].
  split; [apply H4; [repeat constructor | repeat constructor
                    | split; reflexivity]|].
  apply H5; [repeat constructor | repeat constructor | split; reflexivity
            | reflexivity].
Defined.

(** C7, at the failing input.  The model wraps the diagram in a fence and
    ends its response with a line break, as a fenced block usually ends.
    The user-flow agent removes the opening fence and keeps the closing
    one: the expression for it matches at the very end of the text only,
    and the line break after the fence is in the way.  The two replacements
    of [cleanJsonString], on the same text, leave no fence. *)
Theorem user_flow_keeps_closing_fence :
  let response :=
    str "```mermaid" ++ ["010"%char] ++ str "graph TD" ++ ["010"%char]
      ++ str "```" ++ ["010"%char] in
  ProductUserFlowDesigner (Responded (Some response))
  = Returned (str "graph TD" ++ ["010"%char] ++ str "```" ++ ["010"%char]) /\
  includes (str "```") (strip_flow_fences (Some response)) = true /\
  includes (str "```") (strip_fences response) = false.
Proof.
  intros response. split; [reflexivity|]. split; reflexivity.
Qed.

(** *** The [catch] clause of the JSON agents *)

(** What does hold of the clause: it throws nothing but one of the three
    critical errors, namely the error [handleApiError] throws, and returns
    the fallback in every other case. *)
Lemma catch_critical_cases (R : Type) (fallback : R) (error : thrown) :
  let e := GeminiService.handleApiError error in
  (catch_critical fallback error = Threw e /\
   In (message_of e) [Some (str "INVALID_API_KEY");
                      Some (str "MISSING_API_KEY");
                      Some (str "QUOTA_EXCEEDED")]) \/
  (catch_critical fallback error = Returned fallback /\
   message_is e (str "INVALID_API_KEY") = false /\
   message_is e (str "MISSING_API_KEY") = false /\
   message_is e (str "QUOTA_EXCEEDED") = false).
Proof.
  intros e. unfold catch_critical. fold e.
  assert (Hm : forall m, message_is e m = true -> message_of e = Some m).
  { intros m. unfold message_is. destruct (message_of e) as [x|];
      [|discriminate]. intros H; apply strict_eq_iff in H; subst; reflexivity. }
  destruct (message_is e (str "INVALID_API_KEY")) eqn:E1.
  { left. split; [reflexivity|]. rewrite (Hm _ E1). simpl; auto. }
  destruct (message_is e (str "MISSING_API_KEY")) eqn:E2.
  { left. split; [reflexivity|]. rewrite (Hm _ E2). simpl; auto. }
  destruct (message_is e (str "QUOTA_EXCEEDED")) eqn:E3.
  { left. split; [reflexivity|]. rewrite (Hm _ E3). simpl; auto. }
  right. auto.
Qed.

(** C8, at the failing input.  The model response does not parse and
    [JSON.parse] reports the offending position, here 429: the classifier
    finds [429] in the message, so [IdeaRadarAgent] and [DecisionGateAgent]
    throw [QUOTA_EXCEEDED] instead of returning their fallback;
    [GenerateIdeaFromTrends], whose parse has a [catch] of its own, returns
    its fallback for the same failure. *)
Theorem json_agents_escalate_parse_failure
  (parse_radar : jsstring -> outcome RadarResult)
  (parse_gate : jsstring -> outcome QAResult)
  (parse_idea : jsstring -> outcome IdeaInput)
  (text : option jsstring) :
  let failure :=
    ThrownError (str "SyntaxError")
                (str "Unexpected token } in JSON at position 429") in
  let json := cleanJsonString (or_else text (str "{}")) in
  parse_radar json = Threw failure ->
  parse_gate json = Threw failure ->
  parse_idea json = Threw failure ->
  IdeaRadarAgent parse_radar (Responded text)
  = Threw (new_Error (str "QUOTA_EXCEEDED")) /\
  DecisionGateAgent parse_gate (Responded text)
  = Threw (new_Error (str "QUOTA_EXCEEDED")) /\
  GenerateIdeaFromTrends parse_idea (Responded text)
  = Returned trends_fallback.
Proof.
  intros failure json H1 H2 H3.
  unfold IdeaRadarAgent, DecisionGateAgent, GenerateIdeaFromTrends,
    json_agent, trends_agent, try_json.
  fold json. rewrite H1, H2, H3. repeat split.
Qed.

Lemma json_agents_escalate_parse_failure_witness :
  let failure :=
    ThrownError (str "SyntaxError")
                (str "Unexpected token } in JSON at position 429") in
  IdeaRadarAgent (fun _ => Threw failure) (Responded (Some (str "{ oops }")))
  = Threw (new_Error (str "QUOTA_EXCEEDED")) /\
  DecisionGateAgent (fun _ => Threw failure) (Responded (Some (str "{ oops }")))
  = Threw (new_Error (str "QUOTA_EXCEEDED")) /\
  GenerateIdeaFromTrends (fun _ => Threw failure)
    (Responded (Some (str "{ oops }")))
  = Returned trends_fallback.
Proof.
  intros failure.
  apply (json_agents_escalate_parse_failure
           (fun _ => Threw failure) (fun _ => Threw failure)
           (fun _ => Threw failure) (Some (str "{ oops }")));
    reflexivity.
Defined.

End ServiceFacts.

(* ===================================================================== *)
(** ** The stage machine of the App component *)
(* ===================================================================== *)

Module AppFacts.

(** The banner and the loading flags are cells of their own: none of the
    setters below touches the factory state. *)
Lemma state_handleApiError err a : state (App.handleApiError err a) = state a.
Proof.
  unfold App.handleApiError.
  repeat (destruct (message_is err _); [reflexivity|]). reflexivity.
Qed.

(** Opens the handlers of a goal down to record updates of the state. *)
Ltac open_handlers :=
  unfold step, handleIdeaSubmit, handleProceedToProduct, handleProceedToTech,
    handleProceedToDev, handleEvaluateMetrics,
    handleAutoResearch_start, handleAutoResearch_settle,
    handleIdeaSubmit_start, handleIdeaSubmit_settle,
    handleProceedToProduct_start, handleProceedToProduct_settle,
    handleOptimizeProduct_start, handleOptimizeProduct_settle,
    handleGenerateUserFlow_start, handleGenerateUserFlow_settle,
    handleGenerateTechSpec_start, handleGenerateTechSpec_settle,
    handleProceedToTech_start, handleProceedToTech_settle,
    handleProceedToDev_start, handleProceedToDev_settle,
    handleEvaluateMetrics_start, handleEvaluateMetrics_settle,
    simulateLaunch, handleRestart, edit_idea, edit_metrics,
    update_product_result in *;
  repeat match goal with
         | o : outcome _ |- _ => destruct o
         | |- context [if ?b then _ else _] => destruct b eqn:?
         end;
  cbn [state settle issue setState setApiKeyError setIsResearching
       setLoadingOptimization setLoadingUserFlow setLoadingTechSpec] in *;
  rewrite ?state_handleApiError in *;
  cbn [state with_currentStage with_idea with_radar with_product with_tech
       with_dev with_qa with_status with_qa_status with_metrics
       currentStage idea radar product tech dev qa status result
       qa_status metrics qa_result] in *.

(** *** Invariants of every step *)

Lemma step_stage_in_range a e :
  stage_in_range (state a) -> stage_in_range (state (step a e)).
Proof.
  unfold stage_in_range. intros H.
  destruct e; open_handlers; simpl; lia.
Qed.

Lemma step_keeps_statuses a e :
  (forall st, status_of st (state a) <> SKIPPED) ->
  forall st, status_of st (state (step a e)) <> SKIPPED.
Proof.
  intros H st.
  pose proof (H Radar) as HR. pose proof (H Product) as HP.
  pose proof (H Tech) as HT. pose proof (H Dev) as HD. pose proof (H QA) as HQ.
  unfold status_of in *.
  destruct e; open_handlers; destruct st; simpl; try assumption;
    discriminate.
Qed.

Lemma run_reachable has_key es : forall a a',
  reachable has_key a -> run a es = Some a' -> reachable has_key a'.
Proof.
  induction es as [|e es IH]; simpl; intros a a' Ha H.
  - injection H as <-. exact Ha.
  - destruct (enabled a e) eqn:En; [|discriminate].
    apply (IH (step a e)); [apply reach_step; assumption | exact H].
Qed.

Lemma reachable_stage_in_range has_key a :
  reachable has_key a -> stage_in_range (state a).
Proof.
  induction 1 as [|a e _ IH _].
  - unfold stage_in_range; simpl; lia.
  - apply step_stage_in_range; exact IH.
Qed.

Lemma reachable_no_skipped has_key a :
  reachable has_key a -> forall st, status_of st (state a) <> SKIPPED.
Proof.
  induction 1 as [|a e _ IH _].
  - intros []; discriminate.
  - apply step_keeps_statuses; exact IH.
Qed.

(** *** C3: the active stage *)

(** C3 fails as stated: the component starts at stage 0, where none of the
    five stages of the status rail is active. *)
Lemma initial_state_has_no_active_stage :
  reachable true (initial_app true) /\
  currentStage (state (initial_app true)) = 0%Z /\
  active_stages (state (initial_app true)) = [] /\
  List.length (active_stages (state (initial_app true))) <> 1.
Proof.
  split; [apply reach_init|]. split; [reflexivity|].
  split; [reflexivity | discriminate].
Qed.

(** C3, amended.  In every reachable state the stage counter is one of
    0..5 and at most one stage is active: none at stage 0, and from stage 1
    on exactly the stage the counter selects. *)
Theorem active_stage_follows_counter has_key a :
  reachable has_key a ->
  let n := currentStage (state a) in
  (n = 0 \/ n = 1 \/ n = 2 \/ n = 3 \/ n = 4 \/ n = 5)%Z /\
  (n = 0%Z -> active_stages (state a) = []) /\
  (n = 1%Z -> active_stages (state a) = [Radar]) /\
  (n = 2%Z -> active_stages (state a) = [Product]) /\
  (n = 3%Z -> active_stages (state a) = [Tech]) /\
  (n = 4%Z -> active_stages (state a) = [Dev]) /\
  (n = 5%Z -> active_stages (state a) = [QA]) /\
  ((1 <= n)%Z -> List.length (active_stages (state a)) = 1).
Proof.
  intros H n. pose proof (reachable_stage_in_range has_key a H) as R.
  unfold stage_in_range in R. fold n in R.
  unfold active_stages, stages, isActive. fold n.
  split; [lia|].
  repeat split; intros E;
    try (rewrite E; reflexivity).
  assert (C : (n = 1 \/ n = 2 \/ n = 3 \/ n = 4 \/ n = 5)%Z) by lia.
  destruct C as [-> | [-> | [-> | [-> | ->]]]]; reflexivity.
Qed.

Lemma active_stage_follows_counter_witness :
  let a :=
    step (step (step (initial_app true) (EditName (str "CatGroomer AI")))
               (EditTargetUser (str "Busy cat owners")))
         ClickSubmit in
  reachable true a /\
  currentStage (state a) = 1%Z /\
  active_stages (state a) = [Radar].
Proof.
  intros a.
  assert (R : reachable true a).
  { apply (run_reachable true
             [EditName (str "CatGroomer AI");
              EditTargetUser (str "Busy cat owners"); ClickSubmit]
             (initial_app true));
      [apply reach_init | reflexivity]. }
  split; [exact R|]. split; [reflexivity|].
  apply (active_stage_follows_counter true a R). reflexivity.
Defined.

(** *** C10: the statuses in use *)

(** C10.  No step gives a stage the status [SKIPPED]: in every reachable
    state each of the five statuses is [IDLE], [THINKING], [COMPLETED] or
    [FAILED]. *)
Theorem statuses_never_skipped has_key a :
  reachable has_key a ->
  forall st, In (status_of st (state a)) [IDLE; THINKING; COMPLETED; FAILED].
Proof.
  intros H st. pose proof (reachable_no_skipped has_key a H st) as N.
  destruct (status_of st (state a)); simpl; auto. congruence.
Qed.

Lemma statuses_never_skipped_witness :
  let a :=
    step (step (step (initial_app true) (EditName (str "CatGroomer AI")))
               (EditTargetUser (str "Busy cat owners")))
         ClickSubmit in
  reachable true a /\
  forall st, In (status_of st (state a)) [IDLE; THINKING; COMPLETED; FAILED].
Proof.
  intros a.
  assert (R : reachable true a).
  { apply (run_reachable true
             [EditName (str "CatGroomer AI");
              EditTargetUser (str "Busy cat owners"); ClickSubmit]
             (initial_app true));
      [apply reach_init | reflexivity]. }
  split; [exact R | exact (statuses_never_skipped true a R)].
Defined.

(** *** C6: restart *)

(** C6.  A confirmed restart puts the factory state back to
    [INITIAL_STATE], whatever it was: stage 0, an empty idea, every stage
    [IDLE] with no result, zeroed metrics; and the banner is cleared. *)
Theorem handleRestart_resets a :
  let a' := handleRestart true a in
  state a' = INITIAL_STATE /\
  currentStage (state a') = 0%Z /\
  idea (state a') = mkIdea [] [] [] [] /\
  (forall st, status_of st (state a') = IDLE) /\
  result (radar (state a')) = None /\
  result (product (state a')) = None /\
  result (tech (state a')) = None /\
  result (dev (state a')) = None /\
  qa_result (qa (state a')) = None /\
  metrics (qa (state a')) = mkMetrics (Num 0) [] [] [] /\
  apiKeyError a' = None /\
  step a (ClickRestart true) = a'.
Proof.
  simpl. repeat split. intros []; reflexivity.
Qed.

(** *** C2: when the stage counter moves *)

(** C2 fails as stated: the idea is submitted at stage 0, the radar call
    fails, and the counter is at 1; it was already there before the call
    settled. *)
Lemma idea_submit_failure_leaves_stage_advanced :
  let a :=
    step (step (initial_app true) (EditName (str "CatGroomer AI")))
         (EditTargetUser (str "Busy cat owners")) in
  let failure := new_Error (str "QUOTA_EXCEEDED") in
  reachable true a /\
  enabled a ClickSubmit = true /\
  currentStage (state a) = 0%Z /\
  currentStage (state (handleIdeaSubmit_start a)) = 1%Z /\
  currentStage (state (handleIdeaSubmit (Threw failure) a)) = 1%Z /\
  status (radar (state (handleIdeaSubmit (Threw failure) a))) = FAILED /\
  currentStage (state (handleIdeaSubmit (Threw failure) a))
  <> currentStage (state a).
Proof.
  intros a failure.
  split.
  { apply (run_reachable true
             [EditName (str "CatGroomer AI");
              EditTargetUser (str "Busy cat owners")] (initial_app true));
      [apply reach_init | reflexivity]. }
  repeat split; discriminate.
Qed.

(** C2, amended.  Each of the four handlers writes its stage number and the
    status [THINKING] (the result of the slot kept) before the call is
    awaited.  The settling of the call leaves the counter where it is and
    sets the slot of the stage: [COMPLETED] with the result on success (the
    value the radar agent returned; for the product, tech and dev stages
    the result object built from the returned text), [FAILED] with the
    earlier result kept on failure.  So after the handler the counter is
    at the handler's stage whether the call succeeded or failed. *)
Theorem stage_is_set_before_the_call a :
  (idea_ready (state a) = true ->
   currentStage (state (handleIdeaSubmit_start a)) = 1%Z /\
   radar (state (handleIdeaSubmit_start a))
   = mkSlot THINKING (result (radar (state a))) /\
   forall o,
     currentStage (state (handleIdeaSubmit o a)) = 1%Z /\
     radar (state (handleIdeaSubmit o a))
     = match o with
       | Returned r => mkSlot COMPLETED (Some r)
       | Threw _ => mkSlot FAILED (result (radar (state a)))
       end) /\
  (currentStage (state (handleProceedToProduct_start a)) = 2%Z /\
   product (state (handleProceedToProduct_start a))
   = mkSlot THINKING (result (product (state a))) /\
   forall o,
     currentStage (state (handleProceedToProduct o a)) = 2%Z /\
     product (state (handleProceedToProduct o a))
     = match o with
       | Returned prdText =>
           mkSlot COMPLETED
             (Some (mkProductResult (Some (or_else prdText (str "")))
                      (Some []) None None None))
       | Threw _ => mkSlot FAILED (result (product (state a)))
       end) /\
  (currentStage (state (handleProceedToTech_start a)) = 3%Z /\
   tech (state (handleProceedToTech_start a))
   = mkSlot THINKING (result (tech (state a))) /\
   forall o,
     currentStage (state (handleProceedToTech o a)) = 3%Z /\
     tech (state (handleProceedToTech o a))
     = match o with
       | Returned techSpec =>
           mkSlot COMPLETED
             (Some (mkTechResult (str "Toh Framework") (str "") (str "")
                      (or_else techSpec (str ""))))
       | Threw _ => mkSlot FAILED (result (tech (state a)))
       end) /\
  (currentStage (state (handleProceedToDev_start a)) = 4%Z /\
   dev (state (handleProceedToDev_start a))
   = mkSlot THINKING (result (dev (state a))) /\
   forall o,
     currentStage (state (handleProceedToDev o a)) = 4%Z /\
     dev (state (handleProceedToDev o a))
     = match o with
       | Returned devOutput =>
           mkSlot COMPLETED
             (Some (mkDevResult (or_else devOutput (str "")) (str "")))
       | Threw _ => mkSlot FAILED (result (dev (state a)))
       end) /\
  (forall o,
      currentStage (state (handleIdeaSubmit_settle o a))
      = currentStage (state a) /\
      radar (state (handleIdeaSubmit_settle o a))
      = match o with
        | Returned r => mkSlot COMPLETED (Some r)
        | Threw _ => mkSlot FAILED (result (radar (state a)))
        end) /\
  (forall o,
      currentStage (state (handleProceedToProduct_settle o a))
      = currentStage (state a) /\
      product (state (handleProceedToProduct_settle o a))
      = match o with
        | Returned prdText =>
            mkSlot COMPLETED
              (Some (mkProductResult (Some (or_else prdText (str "")))
                       (Some []) None None None))
        | Threw _ => mkSlot FAILED (result (product (state a)))
        end) /\
  (forall o,
      currentStage (state (handleProceedToTech_settle o a))
      = currentStage (state a) /\
      tech (state (handleProceedToTech_settle o a))
      = match o with
        | Returned techSpec =>
            mkSlot COMPLETED
              (Some (mkTechResult (str "Toh Framework") (str "") (str "")
                       (or_else techSpec (str ""))))
        | Threw _ => mkSlot FAILED (result (tech (state a)))
        end) /\
  (forall o,
      currentStage (state (handleProceedToDev_settle o a))
      = currentStage (state a) /\
      dev (state (handleProceedToDev_settle o a))
      = match o with
        | Returned devOutput =>
            mkSlot COMPLETED
              (Some (mkDevResult (or_else devOutput (str "")) (str "")))
        | Threw _ => mkSlot FAILED (result (dev (state a)))
        end).
Proof.
  split.
  { intros H. unfold handleIdeaSubmit, handleIdeaSubmit_start. rewrite H.
    cbn [negb]. repeat split; destruct o; open_handlers; reflexivity. }
  repeat split; try destruct o; open_handlers; reflexivity.
Qed.

Lemma stage_is_set_before_the_call_witness :
  let a :=
    step (step (initial_app true) (EditName (str "CatGroomer AI")))
         (EditTargetUser (str "Busy cat owners")) in
  idea_ready (state a) = true /\
  currentStage (state (handleIdeaSubmit_start a)) = 1%Z /\
  radar (state (handleIdeaSubmit_start a)) = mkSlot THINKING None /\
  forall o,
    currentStage (state (handleIdeaSubmit o a)) = 1%Z /\
    radar (state (handleIdeaSubmit o a))
    = match o with
      | Returned r => mkSlot COMPLETED (Some r)
      | Threw _ => mkSlot FAILED None
      end.
Proof.
  intros a. split; [reflexivity|].
  apply (proj1 (stage_is_set_before_the_call a)). reflexivity.
Defined.

(** *** C5: the order of the stages *)

(** C5, at the failing input.  Past stage 0 the form of stage 0 is locked
    for the pointer only ([opacity-50 pointer-events-none]); its button
    stays rendered and enabled, unlike the other advance buttons, which are
    rendered at their own stage only.  At stage 2 a second submission (the
    button reached with the keyboard) runs [handleIdeaSubmit], which writes
    stage 1: an action other than restart has lowered the counter. *)
Lemma idea_submit_lowers_stage :
  let proceed :=
    {| score := Num 80; reasoning := str "Strong demand";
       radar_decision := str "PROCEED"; rawOutput := None |} in
  let es :=
    [EditName (str "CatGroomer AI"); EditTargetUser (str "Busy cat owners");
     ClickSubmit; RadarSettled (Returned proceed); ClickProceedToProduct] in
  exists a,
    run (initial_app true) es = Some a /\
    reachable true a /\
    currentStage (state a) = 2%Z /\
    enabled a ClickSubmit = true /\
    currentStage (state (step a ClickSubmit)) = 1%Z /\
    (currentStage (state (step a ClickSubmit)) < currentStage (state a))%Z.
Proof.
  intros proceed es.
  destruct (run (initial_app true) es) as [a|] eqn:E; [|discriminate].
  exists a. split; [reflexivity|].
  split; [apply (run_reachable true es (initial_app true));
          [apply reach_init | exact E]|].
  vm_compute in E. injection E as <-. repeat split.
Qed.

(** The order of the stages, as far as it holds.  An advance action writes
    a fixed stage number, so at its own stage it moves the counter to the
    next one, and a run from the initial state takes the counter through
    0, 1, 2, 3, 4, 5.  Every action that can happen, the confirmed restart
    and the idea submission apart, leaves the counter where it is or raises
    it; the idea submission does so at stages 0 and 1. *)
Theorem stage_counter_advances :
  (forall a, currentStage (state a) = 0%Z -> idea_ready (state a) = true ->
             currentStage (state (step a ClickSubmit))
             = (currentStage (state a) + 1)%Z) /\
  (forall a, currentStage (state a) = 1%Z ->
             currentStage (state (step a ClickProceedToProduct))
             = (currentStage (state a) + 1)%Z) /\
  (forall a, currentStage (state a) = 2%Z ->
             currentStage (state (step a ClickProceedToTech))
             = (currentStage (state a) + 1)%Z) /\
  (forall a, currentStage (state a) = 3%Z ->
             currentStage (state (step a ClickProceedToDev))
             = (currentStage (state a) + 1)%Z) /\
  (forall a, currentStage (state a) = 4%Z ->
             currentStage (state (step a ClickSimulateLaunch))
             = (currentStage (state a) + 1)%Z) /\
  (forall a e,
      enabled a e = true -> e <> ClickSubmit -> e <> ClickRestart true ->
      (currentStage (state a) <= currentStage (state (step a e)))%Z) /\
  (forall a,
      (currentStage (state a) <= 1)%Z ->
      (currentStage (state a) <= currentStage (state (step a ClickSubmit)))%Z) /\
  (let proceed :=
     {| score := Num 80; reasoning := str "Strong demand";
        radar_decision := str "PROCEED"; rawOutput := None |} in
   let es :=
     [EditName (str "CatGroomer AI"); EditTargetUser (str "Busy cat owners");
      ClickSubmit; RadarSettled (Returned proceed);
      ClickProceedToProduct; ProductSettled (Returned (Some (str "PRD")));
      ClickProceedToTech; TechSettled (Returned (Some (str "Architecture")));
      ClickProceedToDev; DevSettled (Returned (Some (str "Scaffold")));
      ClickSimulateLaunch] in
   run (initial_app true) es <> None /\
   stage_trace (initial_app true) es
   = [0; 0; 0; 1; 1; 2; 2; 3; 3; 4; 4; 5]%Z).
Proof.
  split; [|split; [|split; [|split; [|split; [|split; [|split]]]]]].
  - intros a H R. unfold step, handleIdeaSubmit_start. rewrite R, H.
    reflexivity.
  - intros a H. rewrite H. reflexivity.
  - intros a H. rewrite H. reflexivity.
  - intros a H. rewrite H. reflexivity.
  - intros a H. rewrite H. reflexivity.
  - intros a e En N1 N2.
    destruct e; try congruence; try (destruct confirmed; [congruence|]);
      unfold enabled in En;
      repeat match type of En with
             | (_ && _)%bool = true =>
                 apply andb_true_iff in En; destruct En as [? En]
             end;
      open_handlers; try lia.
  - intros a H. open_handlers; lia.
  - split; [discriminate | reflexivity].
Qed.

Lemma stage_counter_advances_witness :
  let a :=
    step (step (initial_app true) (EditName (str "CatGroomer AI")))
         (EditTargetUser (str "Busy cat owners")) in
  currentStage (state a) = 0%Z /\
  idea_ready (state a) = true /\
  currentStage (state (step a ClickSubmit)) = (currentStage (state a) + 1)%Z /\
  enabled (step a ClickSubmit) (RadarSettled (Threw (new_Error (str "x"))))
  = true /\
  (currentStage (state (step a ClickSubmit))
   <= currentStage
        (state (step (step a ClickSubmit)
                     (RadarSettled (Threw (new_Error (str "x")))))))%Z.
Proof.
  intros a.
  destruct stage_counter_advances as (H1 & _ & _ & _ & _ & H6 & _).
  split; [reflexivity|]. split; [reflexivity|].
  split; [apply H1; reflexivity|].
  split; [reflexivity|].
  apply H6; [reflexivity | discriminate | discriminate].
Defined.

(** *** C9: what a stage handler leaves alone *)

(** C9.  A stage handler, from its call to the settling of its agent call
    and for either outcome, changes nothing of the factory state but the
    stage counter and the slot of its own stage: the idea, the QA metrics
    and the slots of the other stages stay as they were.  This holds of the
    two halves of each handler too, whatever happens in between. *)
Theorem stage_handlers_frame a :
  (forall o, untouched Radar (state a) (state (handleIdeaSubmit o a))) /\
  (forall o, untouched Product (state a) (state (handleProceedToProduct o a))) /\
  (forall o, untouched Tech (state a) (state (handleProceedToTech o a))) /\
  (forall o, untouched Dev (state a) (state (handleProceedToDev o a))) /\
  (forall o, untouched QA (state a) (state (handleEvaluateMetrics o a))) /\
  (untouched Radar (state a) (state (handleIdeaSubmit_start a)) /\
   forall o, untouched Radar (state a) (state (handleIdeaSubmit_settle o a))) /\
  (untouched Product (state a) (state (handleProceedToProduct_start a)) /\
   forall o,
     untouched Product (state a) (state (handleProceedToProduct_settle o a))) /\
  (untouched Tech (state a) (state (handleProceedToTech_start a)) /\
   forall o, untouched Tech (state a) (state (handleProceedToTech_settle o a))) /\
  (untouched Dev (state a) (state (handleProceedToDev_start a)) /\
   forall o, untouched Dev (state a) (state (handleProceedToDev_settle o a))) /\
  (untouched QA (state a) (state (handleEvaluateMetrics_start a)) /\
   forall o, untouched QA (state a) (state (handleEvaluateMetrics_settle o a))).
Proof.
  unfold untouched.
  repeat split; try (intros N); open_handlers; try reflexivity; congruence.
Qed.

Lemma stage_handlers_frame_witness :
  let a :=
    step (step (initial_app true) (EditName (str "CatGroomer AI")))
         (EditTargetUser (str "Busy cat owners")) in
  untouched Radar (state a)
    (state (handleIdeaSubmit (Threw (new_Error (str "QUOTA_EXCEEDED"))) a)).
Proof.
  intros a.
  apply (proj1 (stage_handlers_frame a)).
Defined.

End AppFacts.

(* ===================================================================== *)
(** ** More on the service module *)
(* ===================================================================== *)

Module ServiceMore.

Import JsFacts ServiceFacts.

(** *** The cached client *)

(** [getAI]: the first successful call fixes the client; every later call
    returns that same client, whatever the environment holds by then. *)
Theorem getAI_caches_first_client
  (k1 k2 : option jsstring) (ai : GoogleGenAI) (cache : option GoogleGenAI) :
  getAI None k1 = (Returned ai, cache) ->
  k1 = Some (apiKey ai) /\ truthy (apiKey ai) = true /\
  getAI cache k2 = (Returned ai, cache).
Proof.
  unfold getAI. destruct k1 as [k|]; [|discriminate].
  destruct (truthy k) eqn:T; simpl; [|discriminate].
  intros [= <- <-]. auto.
Qed.

Lemma getAI_caches_first_client_witness :
  getAI None (Some (str "AIza-key"))
  = (Returned (mkGoogleGenAI (str "AIza-key")),
     Some (mkGoogleGenAI (str "AIza-key"))) /\
  getAI (Some (mkGoogleGenAI (str "AIza-key"))) None
  = (Returned (mkGoogleGenAI (str "AIza-key")),
     Some (mkGoogleGenAI (str "AIza-key"))).
Proof.
  split; [reflexivity|].
  apply (getAI_caches_first_client (Some (str "AIza-key")) None
           (mkGoogleGenAI (str "AIza-key"))
           (Some (mkGoogleGenAI (str "AIza-key")))).
  reflexivity.
Defined.

(** [getAI] without a client: it throws exactly when the key is not set or
    is the empty string, the error is [MISSING_API_KEY], and no client is
    cached, so that the next call looks at the environment again. *)
Theorem getAI_missing_key (k : option jsstring) :
  (or_else k (str "") = [] <-> fst (getAI None k) = Threw missing_key) /\
  (or_else k (str "") = [] -> snd (getAI None k) = None) /\
  (or_else k (str "") <> [] ->
   getAI None k = (Returned (mkGoogleGenAI (or_else k (str ""))),
                   Some (mkGoogleGenAI (or_else k (str ""))))).
Proof.
  unfold getAI. destruct k as [[|c k]|]; simpl;
    repeat split; try reflexivity; try discriminate; congruence.
Qed.

Lemma getAI_missing_key_witness :
  or_else (Some (str "")) (str "") = [] /\
  fst (getAI None (Some (str ""))) = Threw missing_key /\
  snd (getAI None (Some (str ""))) = None.
Proof.
  destruct (getAI_missing_key (Some (str ""))) as (H1 & H2 & _).
  split; [reflexivity|].
  split; [apply H1; reflexivity | apply H2; reflexivity].
Defined.

(** *** The classifier *)

Lemma handleApiError_cases (error : thrown) :
  let msg := toLowerCase (error_text error) in
  let key :=
    includes (str "401") msg || includes (str "403") msg
    || includes (str "api key") msg || includes (str "unauthenticated") msg in
  let quota := includes (str "429") msg || includes (str "quota") msg in
  (key = true /\
   GeminiService.handleApiError error = new_Error (str "INVALID_API_KEY")) \/
  (key = false /\ quota = true /\
   GeminiService.handleApiError error = new_Error (str "QUOTA_EXCEEDED")) \/
  (key = false /\ quota = false /\
   GeminiService.handleApiError error = error).
Proof.
  cbv zeta. unfold GeminiService.handleApiError.
  rewrite toLowerCase_not_missing_key.
  destruct (includes (str "401") _ || _ || _ || _); [left; auto|].
  destruct (includes (str "429") _ || _); right; [left | right]; auto.
Qed.

(** Classifying twice is classifying once: the errors [handleApiError]
    makes are left alone by it. *)
Theorem handleApiError_idempotent (error : thrown) :
  GeminiService.handleApiError (GeminiService.handleApiError error)
  = GeminiService.handleApiError error.
Proof.
  destruct (handleApiError_cases error) as [[_ H]|[(_ & _ & H)|(_ & _ & H)]];
    rewrite H; [reflexivity | reflexivity | exact H].
Qed.

Lemma toLowerCase_app a b :
  toLowerCase (a ++ b) = toLowerCase a ++ toLowerCase b.
Proof. apply map_app. Qed.

Lemma includes_lower_word needle pre w post :
  toLowerCase w = needle ->
  includes needle (toLowerCase (pre ++ w ++ post)) = true.
Proof.
  intros <-. apply includes_iff.
  exists (toLowerCase pre), (toLowerCase post).
  rewrite !toLowerCase_app. reflexivity.
Qed.

(** The classifier does not look at the case of the letters: an error
    whose text holds [api key] or [unauthenticated] (or [401], [403]) in any
    mix of upper and lower case is an [INVALID_API_KEY]. *)
Theorem handleApiError_ignores_case (error : thrown) (needle pre w post : jsstring) :
  In needle [str "401"; str "403"; str "api key"; str "unauthenticated"] ->
  error_text error = pre ++ w ++ post ->
  toLowerCase w = needle ->
  GeminiService.handleApiError error = new_Error (str "INVALID_API_KEY").
Proof.
  intros Hin E Hw. unfold GeminiService.handleApiError. rewrite E.
  pose proof (includes_lower_word needle pre w post Hw) as H.
  destruct Hin as [<-|[<-|[<-|[<-|[]]]]]; rewrite H;
    rewrite ?orb_true_r; reflexivity.
Qed.

Lemma handleApiError_ignores_case_witness :
  GeminiService.handleApiError
    (new_Error (str "API Key not valid. Please pass a valid API key."))
  = new_Error (str "INVALID_API_KEY").
Proof.
  apply (handleApiError_ignores_case _ (str "api key") (str "")
           (str "API Key") (str " not valid. Please pass a valid API key."));
    [simpl; auto | reflexivity | reflexivity].
Defined.

(** *** What the agents throw *)

(** [IdeaRadarAgent] and [DecisionGateAgent] throw nothing but an error
    whose message is one of the three critical ones, and what they return
    is what [JSON.parse] decoded or the fallback. *)
Theorem json_agents_outcomes (R : Type) (JSON_parse : jsstring -> outcome R)
  (fallback : R) (a : attempt) :
  match json_agent JSON_parse fallback a with
  | Threw e =>
      In (message_of e) [Some (str "INVALID_API_KEY");
                         Some (str "MISSING_API_KEY");
                         Some (str "QUOTA_EXCEEDED")]
  | Returned r =>
      r = fallback \/
      exists text,
        a = Responded text /\
        JSON_parse (cleanJsonString (or_else text (str "{}"))) = Returned r
  end.
Proof.
  unfold json_agent.
  destruct (try_json JSON_parse a) as [r|error] eqn:T.
  - right. destruct a as [| |text]; try discriminate. exists text. auto.
  - destruct (catch_critical_cases R fallback error) as [[-> H]|[-> _]];
      [exact H | left; reflexivity].
Qed.


(** *** [cleanJsonString] on texts without fences *)

Lemma replace_fence_absent h m s :
  includes (h :: m) s = false -> replace_fence (h :: m) s = s.
Proof.
  induction s as [|c s IH]; intros H; [apply replace_fence_nil|].
  cbn [includes] in H. apply orb_false_iff in H. destruct H as [H1 H2].
  rewrite replace_fence_keep by exact H1. f_equal. apply IH. exact H2.
Qed.

Lemma strip_fences_absent s :
  includes (str "```") s = false -> strip_fences s = s.
Proof.
  intros H. unfold strip_fences.
  pose proof (includes_longer (str "```") (str "json") s H) as HJ.
  change (str "```" ++ str "json") with ("`"%char :: str "``json") in HJ.
  change (str "```json") with ("`"%char :: str "``json").
  rewrite (replace_fence_absent _ _ s HJ).
  change (str "```") with ("`"%char :: str "``") in *.
  apply replace_fence_absent. exact H.
Qed.

(** The search of [cleanJsonString] on an arbitrary text [l]: when both
    braces are found in order, [l] splits at the first ['{'] and the last
    ['}'] and the part between them, braces included, is what is taken. *)
Lemma extract_object (l : jsstring) :
  let firstOpen := indexOf "{"%char l in
  let lastClose := lastIndexOf "}"%char l in
  (negb (firstOpen =? -1)%Z && negb (lastClose =? -1)%Z
   && (lastClose >? firstOpen)%Z)%bool = true ->
  exists pre body post,
    l = pre ++ ("{"%char :: body ++ ["}"%char]) ++ post /\
    ~ In "{"%char pre /\ ~ In "}"%char post /\
    substring l firstOpen (lastClose + 1)%Z = "{"%char :: body ++ ["}"%char].
Proof.
  cbv zeta. unfold indexOf, lastIndexOf. intros C.
  apply andb_true_iff in C. destruct C as [C C3].
  apply andb_true_iff in C. destruct C as [C1 C2].
  destruct (indexOf_from_spec "{"%char l 0)
    as [[_ Hi]|(pre & rest & El & Hpre & Hi)];
    [rewrite Hi in C1; discriminate|].
  destruct (lastIndexOf_from_spec "}"%char l 0 (-1))
    as [[_ Hl]|(front & post & El' & Hpost & Hl)];
    [rewrite Hl in C2; discriminate|].
  rewrite Hi, Hl in *.
  destruct (split_between "{"%char "}"%char pre rest front post)
    as (body & Hfront & Hrest); [rewrite <- El, <- El'; reflexivity | lia |].
  exists pre, body, post.
  assert (Hsplit : l = pre ++ ("{"%char :: body ++ ["}"%char]) ++ post).
  { rewrite El, Hrest. simpl. rewrite <- app_assoc. reflexivity. }
  split; [exact Hsplit|]. split; [exact Hpre|]. split; [exact Hpost|].
  rewrite Hsplit at 1.
  replace (0 + Z.of_nat (List.length pre))%Z
    with (Z.of_nat (List.length pre)) by lia.
  replace (0 + Z.of_nat (List.length front) + 1)%Z
    with (Z.of_nat (List.length pre)
          + Z.of_nat (List.length ("{"%char :: body ++ ["}"%char])))%Z.
  - apply substring_middle.
  - rewrite Hfront. simpl List.length. rewrite !length_app. simpl. lia.
Qed.

Lemma substring_whole (s : jsstring) :
  substring s 0 (Z.of_nat (List.length s)) = s.
Proof.
  pose proof (substring_middle [] s []) as S.
  change ([] ++ s ++ []) with (s ++ []) in S. rewrite app_nil_r in S.
  change (Z.of_nat (List.length (@nil ascii))) with 0%Z in S.
  rewrite Z.add_0_l in S. exact S.
Qed.

(** A text in braces, already free of fences, is a fixed point. *)
Lemma cleanJsonString_braced body :
  includes (str "```") ("{"%char :: body ++ ["}"%char]) = false ->
  cleanJsonString ("{"%char :: body ++ ["}"%char])
  = "{"%char :: body ++ ["}"%char].
Proof.
  intros H. set (r := "{"%char :: body ++ ["}"%char]) in *.
  unfold cleanJsonString. change (truthy r) with true. simpl negb. cbv iota.
  rewrite (strip_fences_absent r H).
  assert (Hi : indexOf "{"%char r = 0%Z) by reflexivity.
  assert (Hl : (lastIndexOf "}"%char r = Z.of_nat (List.length body) + 1)%Z).
  { unfold lastIndexOf.
    destruct (lastIndexOf_from_spec "}"%char r 0 (-1))
      as [[Hn _]|(front & post & E & Hpost & Hl)].
    - exfalso. apply Hn. unfold r. right. apply in_or_app. right. left.
      reflexivity.
    - rewrite Hl.
      assert (L : List.length ("{"%char :: body) <= List.length front).
      { apply (last_occurrence_ge "}"%char ("{"%char :: body) [] front post);
          [|exact Hpost]. rewrite <- E. reflexivity. }
      assert (T : List.length r = List.length front + 1 + List.length post).
      { rewrite E, length_app. simpl. lia. }
      unfold r in T. simpl in T, L. rewrite length_app in T. simpl in T. lia. }
  rewrite Hi, Hl.
  replace (Z.of_nat (List.length body) + 1 =? -1)%Z with false by lia.
  replace (Z.of_nat (List.length body) + 1 >? 0)%Z with true by lia.
  simpl andb. cbv iota.
  replace (Z.of_nat (List.length body) + 1 + 1)%Z
    with (Z.of_nat (List.length r)).
  - apply substring_whole.
  - unfold r. cbn [List.length]. rewrite length_app. cbn [List.length]. lia.
Qed.

(** [cleanJsonString] applied to its own result changes nothing, unless
    that result is the empty string (which it turns into an empty object). *)
Theorem cleanJsonString_idempotent (text : jsstring) :
  cleanJsonString text <> [] ->
  cleanJsonString (cleanJsonString text) = cleanJsonString text.
Proof.
  intros Hne.
  pose proof (cleanJsonString_clean text) as Hclean.
  destruct text as [|c text]; [reflexivity|].
  unfold cleanJsonString in Hne, Hclean |- * at 2 3.
  change (truthy (c :: text)) with true in *. simpl negb in *. cbv iota in *.
  set (l := strip_fences (c :: text)) in *.
  destruct (negb (indexOf "{"%char l =? -1)%Z
            && negb (lastIndexOf "}"%char l =? -1)%Z
            && (lastIndexOf "}"%char l >? indexOf "{"%char l)%Z)%bool eqn:C.
  - destruct (extract_object l C) as (pre & body & post & _ & _ & _ & E).
    rewrite E in *. apply cleanJsonString_braced. exact Hclean.
  - unfold cleanJsonString.
    replace (truthy l) with true by (destruct l; [congruence | reflexivity]).
    simpl negb. cbv iota. rewrite (strip_fences_absent l Hclean). rewrite C.
    reflexivity.
Qed.

Lemma cleanJsonString_idempotent_witness :
  cleanJsonString (str "Sure! ```json {x} ``` bye") <> [] /\
  cleanJsonString (cleanJsonString (str "Sure! ```json {x} ``` bye"))
  = cleanJsonString (str "Sure! ```json {x} ``` bye").
Proof.
  assert (N : cleanJsonString (str "Sure! ```json {x} ``` bye") <> [])
    by (intros H; vm_compute in H; discriminate H).
  split; [exact N|].
  apply cleanJsonString_idempotent. exact N.
Defined.

(** The empty object is what [cleanJsonString] gives for the empty text
    only; a text that is nothing but fences and white space comes back as
    the empty string, which is not JSON. *)
Theorem cleanJsonString_empty_result (text : jsstring) :
  (cleanJsonString text = [] <-> text <> [] /\ strip_fences text = []) /\
  (text = [] -> cleanJsonString text = str "{}").
Proof.
  split; [|intros ->; reflexivity].
  destruct text as [|c text].
  - simpl. split; [discriminate | intros [H _]; congruence].
  - unfold cleanJsonString. change (truthy (c :: text)) with true.
    simpl negb. cbv iota. set (l := strip_fences (c :: text)).
    destruct (negb (indexOf "{"%char l =? -1)%Z
              && negb (lastIndexOf "}"%char l =? -1)%Z
              && (lastIndexOf "}"%char l >? indexOf "{"%char l)%Z)%bool eqn:C.
    + destruct (extract_object l C) as (pre & body & post & Hl & _ & _ & E).
      rewrite E. split; [discriminate|].
      intros [_ H]. rewrite H in Hl. destruct pre; discriminate.
    + split; [intros H; split; [discriminate | exact H] | intros [_ H]; exact H].
Qed.

Lemma cleanJsonString_empty_result_witness :
  cleanJsonString (str "```json" ++ ["010"%char] ++ str "```") = [].
Proof.
  apply (proj1 (cleanJsonString_empty_result _)).
  split; [discriminate | vm_compute; reflexivity].
Defined.

(** A JSON object with prose around it and no back-quote anywhere: the
    object comes back as it is, character for character. *)
Theorem cleanJsonString_keeps_object (pre body post : jsstring) :
  ~ In "`"%char (pre ++ body ++ post) ->
  ~ In "{"%char pre -> ~ In "}"%char post ->
  cleanJsonString (pre ++ ("{"%char :: body ++ ["}"%char]) ++ post)
  = "{"%char :: body ++ ["}"%char].
Proof.
  intros Hq Hpre Hpost.
  set (text := pre ++ ("{"%char :: body ++ ["}"%char]) ++ post).
  assert (Hfree : ~ In "`"%char text).
  { unfold text. intros H. apply Hq.
    apply in_app_or in H. destruct H as [H|H];
      [apply in_or_app; left; exact H|].
    apply in_app_or in H. destruct H as [H|H].
    - destruct H as [H|H]; [discriminate|].
      apply in_app_or in H. destruct H as [H|[H|[]]]; [|discriminate].
      apply in_or_app; right; apply in_or_app; left; exact H.
    - apply in_or_app; right; apply in_or_app; right; exact H. }
  assert (Hstrip : strip_fences text = text).
  { unfold strip_fences.
    change (str "```json") with ("`"%char :: str "``json").
    rewrite replace_fence_free by exact Hfree.
    change (str "```") with ("`"%char :: str "``").
    apply replace_fence_free. exact Hfree. }
  unfold cleanJsonString.
  replace (truthy text) with true by (unfold text; destruct pre; reflexivity).
  simpl negb. cbv iota. rewrite Hstrip.
  assert (Hi : indexOf "{"%char text = Z.of_nat (List.length pre)).
  { unfold indexOf.
    destruct (indexOf_from_spec "{"%char text 0)
      as [[Hn _]|(p & r & E & Hp & Hi)].
    - exfalso. apply Hn. unfold text. apply in_or_app. right. left. reflexivity.
    - rewrite Hi.
      assert (List.length p <= List.length pre)
        by (apply (first_occurrence_le "{"%char p r pre
                     ((body ++ ["}"%char]) ++ post));
            [rewrite <- E; reflexivity | exact Hp]).
      assert (List.length pre <= List.length p)
        by (apply (first_occurrence_le "{"%char pre
                     ((body ++ ["}"%char]) ++ post) p r);
            [rewrite <- E; reflexivity | exact Hpre]).
      lia. }
  assert (Hl : lastIndexOf "}"%char text
               = Z.of_nat (List.length pre + 1 + List.length body)).
  { unfold lastIndexOf.
    assert (Et : text = (pre ++ "{"%char :: body) ++ "}"%char :: post).
    { unfold text. rewrite <- !app_assoc. simpl. rewrite <- app_assoc.
      reflexivity. }
    destruct (lastIndexOf_from_spec "}"%char text 0 (-1))
      as [[Hn _]|(f & p & E & Hp & Hl)].
    - exfalso. apply Hn. rewrite Et. apply in_or_app. right. left. reflexivity.
    - rewrite Hl.
      assert (List.length (pre ++ "{"%char :: body) <= List.length f)
        by (apply (last_occurrence_ge "}"%char _ post f p);
            [rewrite <- E, <- Et; reflexivity | exact Hp]).
      assert (List.length f <= List.length (pre ++ "{"%char :: body))
        by (apply (last_occurrence_ge "}"%char f p _ post);
            [rewrite <- E, <- Et; reflexivity | exact Hpost]).
      rewrite length_app in *. simpl in *. lia. }
  rewrite Hi, Hl.
  replace (Z.of_nat (List.length pre) =? -1)%Z with false by lia.
  replace (Z.of_nat (List.length pre + 1 + List.length body) =? -1)%Z
    with false by (symmetry; apply Z.eqb_neq; lia).
  replace (Z.of_nat (List.length pre + 1 + List.length body)
           >? Z.of_nat (List.length pre))%Z with true
    by (symmetry; apply Z.gtb_lt; lia).
  simpl andb. cbv iota.
  unfold text.
  replace (Z.of_nat (List.length pre + 1 + List.length body) + 1)%Z
    with (Z.of_nat (List.length pre)
          + Z.of_nat (List.length ("{"%char :: body ++ ["}"%char])))%Z.
  - apply substring_middle.
  - simpl List.length. rewrite length_app. simpl. lia.
Qed.

Lemma cleanJsonString_keeps_object_witness :
  cleanJsonString (str "Result: " ++ ("{"%char :: str "a: {1}" ++ ["}"%char])
                     ++ str " done")
  = "{"%char :: str "a: {1}" ++ ["}"%char].
Proof.
  apply (cleanJsonString_keeps_object (str "Result: ") (str "a: {1}")
           (str " done")); simpl; intuition discriminate.
Defined.

(** *** The fences of the user-flow agent, at the end of the text *)

Lemma last_fence (u : jsstring) (d : ascii) :
  last (u ++ str "```") d = "`"%char.
Proof.
  change (str "```") with (str "``" ++ ["`"%char]).
  rewrite app_assoc. apply last_last.
Qed.

Lemma replace_trailing_fence_none s :
  last s "x"%char <> "`"%char -> replace_trailing_fence s = s.
Proof.
  induction s as [|c s IH]; intros H; [reflexivity|].
  rewrite replace_trailing_fence_eq.
  destruct (matches_trailing_fence (c :: s)) eqn:M.
  - exfalso. apply H. unfold matches_trailing_fence in M.
    apply strict_eq_iff in M.
    destruct (drop_spaces_split (c :: s)) as (ws & _ & E).
    rewrite M in E. rewrite E. apply last_fence.
  - f_equal. apply IH. destruct s as [|d s]; [discriminate | exact H].
Qed.

Lemma startsWith_shorter p q s :
  startsWith p s = false -> startsWith (p ++ q) s = false.
Proof.
  intros H. destruct (startsWith (p ++ q) s) eqn:E; [|reflexivity].
  apply startsWith_iff in E. destruct E as [t ->].
  rewrite <- H. symmetry. apply startsWith_iff. exists (q ++ t).
  rewrite app_assoc. reflexivity.
Qed.

(** The closing fence is looked for at the very end only.  When the text
    left after the opening fence does not end in a back-quote (a line break
    after the closing fence is enough), nothing is taken from its end; and a
    text that does not open with a fence comes back untouched, closing
    fence or not. *)
Theorem strip_flow_fences_end_only (rest text : jsstring) :
  last (drop_spaces rest) "x"%char <> "`"%char ->
  startsWith (str "```") text = false ->
  strip_flow_fences (Some (str "```mermaid" ++ rest)) = drop_spaces rest /\
  (startsWith (str "mermaid") rest = false ->
   strip_flow_fences (Some (str "```" ++ rest)) = drop_spaces rest) /\
  strip_flow_fences (Some text) = text.
Proof.
  intros Hlast Htext. split; [|split].
  - unfold strip_flow_fences. cbn [or_else].
    change (truthy (str "```mermaid" ++ rest)) with true. cbv iota.
    rewrite startsWith_app. unfold replace_leading_fence.
    rewrite startsWith_app, skipn_app, skipn_all, Nat.sub_diag.
    simpl skipn. simpl app.
    apply replace_trailing_fence_none. exact Hlast.
  - intros Hm. unfold strip_flow_fences. cbn [or_else].
    change (truthy (str "```" ++ rest)) with true. cbv iota.
    replace (startsWith (str "```mermaid") (str "```" ++ rest)) with false
      by (symmetry; cbv [str list_ascii_of_string] in Hm |- *;
          simpl app; rewrite !startsWith_cons, !Ascii.eqb_refl; exact Hm).
    rewrite startsWith_app. unfold replace_leading_fence.
    rewrite startsWith_app, skipn_app, skipn_all, Nat.sub_diag.
    simpl skipn. simpl app.
    apply replace_trailing_fence_none. exact Hlast.
  - unfold strip_flow_fences.
    set (clean := or_else (Some text) (str "")).
    assert (Hc : startsWith (str "```") clean = false).
    { unfold clean. simpl. destruct (truthy text); [exact Htext | reflexivity]. }
    pose proof (startsWith_shorter (str "```") (str "mermaid") clean Hc) as Hm.
    change (str "```" ++ str "mermaid") with (str "```mermaid") in Hm.
    rewrite Hm, Hc. unfold clean. destruct text; reflexivity.
Qed.

Lemma strip_flow_fences_end_only_witness :
  strip_flow_fences
    (Some (str "```mermaid" ++ ["010"%char] ++ str "graph TD"
             ++ ["010"%char] ++ str "```" ++ ["010"%char]))
  = str "graph TD" ++ ["010"%char] ++ str "```" ++ ["010"%char] /\
  strip_flow_fences (Some (str "graph TD" ++ ["010"%char] ++ str "```"))
  = str "graph TD" ++ ["010"%char] ++ str "```".
Proof.
  destruct (strip_flow_fences_end_only
              (["010"%char] ++ str "graph TD" ++ ["010"%char] ++ str "```"
                 ++ ["010"%char])
              (str "graph TD" ++ ["010"%char] ++ str "```"))
    as (H1 & _ & H3);
    [intros H; vm_compute in H; discriminate H | reflexivity |].
  split; [exact H1 | exact H3].
Defined.

End ServiceMore.

(* ===================================================================== *)
(** ** More on the App component *)
(* ===================================================================== *)

Module AppMore.

Import JsFacts ServiceFacts AppFacts.

(** *** The cells a handler does not touch *)

Lemma handleApiError_cells err a :
  state (App.handleApiError err a) = state a /\
  isResearching (App.handleApiError err a) = isResearching a /\
  loadingOptimization (App.handleApiError err a) = loadingOptimization a /\
  loadingUserFlow (App.handleApiError err a) = loadingUserFlow a /\
  loadingTechSpec (App.handleApiError err a) = loadingTechSpec a /\
  pending (App.handleApiError err a) = pending a /\
  (apiKeyError a <> None -> apiKeyError (App.handleApiError err a) <> None).
Proof.
  unfold App.handleApiError.
  repeat (destruct (message_is err _);
          [simpl; repeat split; discriminate|]).
  repeat split. auto.
Qed.

(** Opens a step from an explicit record of cells. *)
Ltac open_step :=
  unfold step, handleAutoResearch_start, handleAutoResearch_settle,
    handleIdeaSubmit_start, handleIdeaSubmit_settle,
    handleProceedToProduct_start, handleProceedToProduct_settle,
    handleOptimizeProduct_start, handleOptimizeProduct_settle,
    handleGenerateUserFlow_start, handleGenerateUserFlow_settle,
    handleGenerateTechSpec_start, handleGenerateTechSpec_settle,
    handleProceedToTech_start, handleProceedToTech_settle,
    handleProceedToDev_start, handleProceedToDev_settle,
    handleEvaluateMetrics_start, handleEvaluateMetrics_settle,
    simulateLaunch, handleRestart, edit_idea, edit_metrics,
    App.handleApiError in *;
  repeat match goal with
         | o : outcome _ |- _ => destruct o
         | |- context [if ?b then _ else _] => destruct b eqn:?
         end;
  cbn [state apiKeyError isResearching loadingOptimization loadingUserFlow
       loadingTechSpec pending settle issue setState setApiKeyError
       setIsResearching setLoadingOptimization setLoadingUserFlow
       setLoadingTechSpec] in *.

(** *** Calls in flight *)

Lemma in_flight_remove c c' l :
  in_flight c' (remove_call c l)
  = if call_eqb c' c then Nat.pred (in_flight c' l) else in_flight c' l.
Proof.
  destruct c, c'; simpl; induction l as [|x l IH]; simpl; try reflexivity;
    destruct x; simpl; rewrite ?IH; reflexivity.
Qed.

Lemma is_pending_in_flight c l :
  existsb (call_eqb c) l = true -> 1 <= in_flight c l.
Proof.
  induction l as [|x l IH]; simpl; [discriminate|].
  destruct (call_eqb c x); simpl; [lia | exact IH].
Qed.

Lemma step_flags_track_calls a e :
  flags_track_calls a -> enabled a e = true -> flags_track_calls (step a e).
Proof.
  destruct a as [s k r lo lu lt p]. unfold flags_track_calls.
  cbn [pending isResearching loadingOptimization loadingUserFlow
       loadingTechSpec].
  intros (H1 & H2 & H3 & H4) En.
  destruct e; unfold enabled, is_pending in En;
    cbn [pending isResearching loadingOptimization loadingUserFlow
         loadingTechSpec] in En;
    repeat match type of En with
           | (_ && _)%bool = true =>
               apply andb_true_iff in En; destruct En as [? En]
           end;
    try (apply is_pending_in_flight in En);
    open_step;
    rewrite ?in_flight_remove; cbn [in_flight call_eqb Nat.add];
    destruct r, lo, lu, lt; cbn [Nat.b2n negb orb] in *;
    try congruence; repeat split; lia.
Qed.

(** Each of the four loading flags ([isResearching] and the three flags of
    the product actions) is up exactly while its call is in flight, and
    there is never more than one such call: the button that starts it is
    disabled for as long. *)
Theorem loading_flags_track_calls has_key a :
  reachable has_key a ->
  flags_track_calls a /\
  forall c, In c [CallTrends; CallReview; CallUserFlow; CallTechSpec] ->
            in_flight c (pending a) <= 1.
Proof.
  intros R.
  assert (F : flags_track_calls a).
  { induction R as [|a e _ IH En].
    - unfold flags_track_calls. simpl. auto.
    - apply step_flags_track_calls; assumption. }
  split; [exact F|].
  destruct F as (H1 & H2 & H3 & H4).
  intros c [<-|[<-|[<-|[<-|[]]]]];
    [rewrite H1 | rewrite H2 | rewrite H3 | rewrite H4];
    match goal with |- Nat.b2n ?b <= 1 => destruct b; simpl; lia end.
Qed.

Lemma loading_flags_track_calls_witness :
  let a := step (initial_app true) ClickAutoResearch in
  reachable true a /\
  isResearching a = true /\
  in_flight CallTrends (pending a) = 1 /\
  enabled a ClickAutoResearch = false.
Proof.
  intros a.
  assert (R : reachable true a)
    by (apply reach_step; [apply reach_init | reflexivity]).
  split; [exact R|]. split; [reflexivity|].
  split; [|reflexivity].
  apply (proj1 (proj1 (loading_flags_track_calls true a R))).
Defined.

(** *** Results and statuses *)







(** *** The banner *)



(** What reaches the banner.  An error that went through the classifier of
    the service and then through the handler of the component raises the
    [INVALID] banner when its text holds [401], [403], [api key] or
    [unauthenticated], else the [QUOTA] banner when it holds [429] or
    [quota]; the factory state is not touched. *)
Theorem classified_error_raises_banner (error : thrown) a :
  let msg := toLowerCase (error_text error) in
  let key :=
    includes (str "401") msg || includes (str "403") msg
    || includes (str "api key") msg || includes (str "unauthenticated") msg in
  let quota := includes (str "429") msg || includes (str "quota") msg in
  let a' := App.handleApiError (GeminiService.handleApiError error) a in
  state a' = state a /\
  (key = true -> option_map type (apiKeyError a') = Some INVALID) /\
  (key = false -> quota = true ->
   option_map type (apiKeyError a') = Some QUOTA).
Proof.
  cbv zeta. split; [apply handleApiError_cells|].
  unfold GeminiService.handleApiError.
  rewrite toLowerCase_not_missing_key.
  split.
  - intros ->. reflexivity.
  - intros -> ->. reflexivity.
Qed.

Lemma classified_error_raises_banner_witness :
  option_map type
    (apiKeyError
       (App.handleApiError
          (GeminiService.handleApiError
             (new_Error (str "got status: 429 Too Many Requests")))
          (initial_app true)))
  = Some QUOTA.
Proof.
  apply (classified_error_raises_banner
           (new_Error (str "got status: 429 Too Many Requests"))
           (initial_app true)); reflexivity.
Defined.

(** A missing key, from end to end: [getAI] throws [MISSING_API_KEY], each
    agent lets that error out as it is (its text, lower-cased, holds
    [api_key] and not [api key], so it is not taken for an invalid key), and
    the component raises the [MISSING] banner for it. *)
Theorem missing_key_is_reported_as_missing
  (R : Type) (JSON_parse : jsstring -> outcome R) (fallback : R) a :
  fst (getAI None None) = Threw missing_key /\
  json_agent JSON_parse fallback NoApiKey = Threw missing_key /\
  trends_agent JSON_parse fallback NoApiKey = Threw missing_key /\
  text_agent NoApiKey = Threw missing_key /\
  ProductUserFlowDesigner NoApiKey = Threw missing_key /\
  option_map type (apiKeyError (App.handleApiError missing_key a))
  = Some MISSING.
Proof.
  repeat split.
Qed.

(** *** Dead ends and late arrivals *)

Lemma existsb_remove_call c c' l :
  existsb (call_eqb c') (remove_call c l) = true ->
  existsb (call_eqb c') l = true.
Proof.
  induction l as [|x l IH]; simpl; [auto|].
  destruct (call_eqb c x); simpl.
  - intros ->. apply orb_true_r.
  - destruct (call_eqb c' x); simpl; [reflexivity | exact IH].
Qed.

(** A failed evaluation of the metrics cannot be tried again: with the
    decision gate [FAILED] and no gate call in flight, the button of the
    gate is not rendered (the panel shows its "Analyzing" line instead),
    and every event that can happen, short of a confirmed restart, leaves
    the gate [FAILED] with no call in flight. *)
Theorem failed_evaluation_is_final a e :
  qa_status (qa (state a)) = FAILED -> is_pending CallGate a = false ->
  enabled a e = true -> e <> ClickRestart true ->
  enabled a ClickEvaluate = false /\
  qa_status (qa (state (step a e))) = FAILED /\
  is_pending CallGate (step a e) = false.
Proof.
  intros F P En N.
  split.
  { unfold enabled. rewrite F. simpl. rewrite !andb_false_r. reflexivity. }
  destruct a as [s k r lo lu lt p].
  unfold is_pending in *. cbn [state pending] in *.
  destruct e; try (destruct confirmed; [congruence|]);
    unfold enabled, is_pending in En; cbn [state pending] in En;
    rewrite ?F, ?P in En; cbn [status_eqb orb] in En;
    rewrite ?andb_false_r in En; try discriminate En;
    open_step;
    cbn [state with_currentStage with_idea with_radar with_product with_tech
         with_dev with_qa with_status with_qa_status with_metrics
         update_product_result
         currentStage idea radar product tech dev qa status result
         qa_status metrics qa_result existsb call_eqb orb] in *;
    (split; [exact F|]);
    first [exact P
          | match goal with
            | |- existsb _ (remove_call ?c ?l) = false =>
                destruct (existsb (call_eqb CallGate) (remove_call c l)) eqn:X;
                [apply existsb_remove_call in X; congruence | reflexivity]
            end].
Qed.

Lemma failed_evaluation_is_final_witness :
  let a :=
    mkApp (with_qa (mkQASlot FAILED (mkMetrics (Num 3) [] [] []) None)
             (with_currentStage 5 INITIAL_STATE))
          None false false false false [] in
  enabled a ClickEvaluate = false /\
  qa_status (qa (state (step a (EditUsers (Num 10))))) = FAILED /\
  is_pending CallGate (step a (EditUsers (Num 10))) = false.
Proof.
  intros a.
  apply (failed_evaluation_is_final a (EditUsers (Num 10)));
    [reflexivity | reflexivity | reflexivity | discriminate].
Defined.

(** A restart does not call off the agent calls in flight: they stay
    pending, and when the radar call of the earlier run settles it writes
    into the fresh state, which is then no longer the initial one (stage 0
    with a radar slot that is [COMPLETED] or [FAILED]). *)
Theorem restart_keeps_calls_in_flight a o :
  is_pending CallRadar a = true ->
  pending (handleRestart true a) = pending a /\
  enabled (handleRestart true a) (RadarSettled o) = true /\
  currentStage (state (step (handleRestart true a) (RadarSettled o))) = 0%Z /\
  status (radar (state (step (handleRestart true a) (RadarSettled o))))
  = match o with Returned _ => COMPLETED | Threw _ => FAILED end /\
  state (step (handleRestart true a) (RadarSettled o)) <> INITIAL_STATE.
Proof.
  intros P.
  assert (S : status
                (radar (state (step (handleRestart true a) (RadarSettled o))))
              = match o with Returned _ => COMPLETED | Threw _ => FAILED end).
  { destruct o; open_handlers; reflexivity. }
  split; [reflexivity|]. split; [exact P|].
  split; [destruct o; open_handlers; reflexivity|].
  split; [exact S|].
  intros E. rewrite E in S. destruct o; discriminate S.
Qed.

Lemma restart_keeps_calls_in_flight_witness :
  let a :=
    step (step (step (initial_app true) (EditName (str "CatGroomer AI")))
               (EditTargetUser (str "Busy cat owners")))
         ClickSubmit in
  is_pending CallRadar a = true /\
  state (step (handleRestart true a)
              (RadarSettled (Threw (new_Error (str "Failed to fetch")))))
  <> INITIAL_STATE.
Proof.
  intros a. split; [reflexivity|].
  apply (restart_keeps_calls_in_flight a
           (Threw (new_Error (str "Failed to fetch")))).
  reflexivity.
Defined.

(** *** Render helpers *)

(** The Stripe badge is shown exactly when the architecture text holds the
    word stripe in some mix of upper and lower case. *)
Theorem stripe_badge_ignores_case (r : TechResult) :
  stripe_detected r = true <->
  exists pre w post,
    fullOutput r = pre ++ w ++ post /\ toLowerCase w = str "stripe".
Proof.
  unfold stripe_detected. rewrite includes_iff. split.
  - intros (u & v & E). unfold toLowerCase in E.
    apply map_eq_app in E. destruct E as (pre & rest & E1 & E2 & E3).
    apply map_eq_app in E3. destruct E3 as (w & post & E4 & E5 & E6).
    exists pre, w, post. split; [rewrite E1, E4; reflexivity | exact E5].
  - intros (pre & w & post & E & L). rewrite E.
    exists (toLowerCase pre), (toLowerCase post).
    unfold toLowerCase in *. rewrite !map_app, L. reflexivity.
Qed.

(** In a reachable state the colour of a stage header tells the status of
    the stage: muted for [IDLE], accent for [THINKING], success for
    [COMPLETED], and danger for [FAILED] alone, since no stage is ever
    [SKIPPED]. *)
Theorem status_colour_tells_status has_key a st :
  reachable has_key a ->
  let c := statusColor (status_of st (state a)) in
  (c = Muted <-> status_of st (state a) = IDLE) /\
  (c = Accent <-> status_of st (state a) = THINKING) /\
  (c = Success <-> status_of st (state a) = COMPLETED) /\
  (c = Danger <-> status_of st (state a) = FAILED).
Proof.
  intros R c. pose proof (reachable_no_skipped has_key a R st) as N.
  unfold c. destruct (status_of st (state a)) eqn:E; cbv [statusColor status_eqb orb];
    repeat split; intros; congruence.
Qed.

Lemma status_colour_tells_status_witness :
  let a :=
    step (step (step (initial_app true) (EditName (str "CatGroomer AI")))
               (EditTargetUser (str "Busy cat owners")))
         ClickSubmit in
  statusColor (status_of Radar (state a)) = Accent /\
  status_of Radar (state a) = THINKING.
Proof.
  intros a.
  assert (R : reachable true a).
  { apply (run_reachable true
             [EditName (str "CatGroomer AI");
              EditTargetUser (str "Busy cat owners"); ClickSubmit]
             (initial_app true));
      [apply reach_init | reflexivity]. }
  split; [reflexivity|].
  apply (proj1 (proj2 (status_colour_tells_status true a Radar R))).
  reflexivity.
Defined.

End AppMore.
